(** * NFT marketplace contract: shallow embedding and verified properties

    The development embeds the [NFTMarketplace] SmartPy contract of
    [src/project.py]: its storage, its private helper [_add_pending] and
    every entrypoint, written in a small error/state monad that mirrors the
    way the source threads [self.data] and aborts on a failed [assert].

    Conventions of the embedding:
    - [sp.nat] and [sp.mutez] are natural numbers ([N]); the amounts handled
      by the contract are bounded by the currency in circulation, so mutez
      addition is plain addition. Mutez subtraction is partial, as on chain:
      a negative difference aborts the call.
    - [sp.timestamp] and [sp.int] are integers ([Z]).
    - [sp.address] and [sp.string] are strings.
    - [sp.big_map] and [sp.map] are finite maps ([gmap]).
    - [sp.send] and [sp.emit] append an operation to the list of operations
      issued by the call; each issued operation is recorded together with
      the storage as it stood at the point of the program that issued it. *)

From Stdlib Require Import NArith ZArith Lia.
From stdpp Require Import base option list strings gmap fin_maps.

Open Scope string_scope.
Open Scope N_scope.

(** ** Types *)

Abbreviation address := string.
Abbreviation mutez := N.
Abbreviation timestamp := Z.

Record token_type : Type := {
  metadata : string;
  author : address;
  owner : address;
  price : mutez;
  for_sale : bool;
  royalty_percent : N;
  created_at : timestamp
}.

Record offer_type : Type := {
  amount : mutez;
  expires_at : timestamp
}.

(** [self.data] *)
Record storage : Type := {
  tokens : gmap N token_type;
  next_id : N;
  offers : gmap N (gmap address offer_type);
  pending_payments : gmap address mutez;
  collected_fees : mutez;
  admin : address;
  pending_admin : option address;
  platform_fee_percent : N;
  mint_price : mutez;
  min_sale_price : mutez;
  max_metadata_length : N;
  max_supply : N;
  paused : bool
}.

(** What the host supplies with each call: [sp.sender], [sp.amount],
    [sp.now]. *)
Record context : Type := {
  sp_sender : address;
  sp_amount : mutez;
  sp_now : timestamp
}.

(** Payloads of [sp.emit], one constructor per tag. *)
Inductive event : Type :=
| Mint_event (token_id : N) (author : address) (metadata : string) (royalty : N)
| Listed (token_id : N) (seller : address) (price : mutez)
| PriceUpdated (token_id : N) (old_price new_price : mutez)
| Cancelled (token_id : N) (seller : address)
| Sale (token_id : N) (seller buyer : address) (price royalty fee : mutez)
| OfferMade (token_id : N) (buyer : address) (amount : mutez) (expires_at : timestamp)
| OfferCancelled (token_id : N) (buyer : address) (refunded : mutez)
| OfferAccepted (token_id : N) (seller buyer : address) (price : mutez)
| Transfer_event (token_id : N) (from_ to_ : address)
| Burn_event (token_id : N) (owner : address)
| Withdrawal (recipient : address) (amount : mutez)
| FeesWithdrawn (admin : address) (amount : mutez)
| PauseChanged (paused : bool)
| AdminProposed (proposed : address)
| AdminChanged (old_admin new_admin : address)
| AdminChangeCancelled (cancelled : bool)
| FeeUpdated (new_fee : N)
| MintPriceUpdated (new_price : mutez)
| MinSalePriceUpdated (new_price : mutez).

Inductive operation : Type :=
| Send (dest : address) (amt : mutez)
| Emit (ev : event).

(** An operation together with the storage at the moment it was issued. *)
Record issued : Type := {
  op : operation;
  at_issue : storage
}.

(** ** Field updates of the storage *)

Definition set_tokens (v : gmap N token_type) (s : storage) : storage :=
  Build_storage v (next_id s) (offers s) (pending_payments s)
    (collected_fees s) (admin s) (pending_admin s) (platform_fee_percent s)
    (mint_price s) (min_sale_price s) (max_metadata_length s) (max_supply s)
    (paused s).

Definition set_next_id (v : N) (s : storage) : storage :=
  Build_storage (tokens s) v (offers s) (pending_payments s)
    (collected_fees s) (admin s) (pending_admin s) (platform_fee_percent s)
    (mint_price s) (min_sale_price s) (max_metadata_length s) (max_supply s)
    (paused s).

Definition set_offers (v : gmap N (gmap address offer_type)) (s : storage)
  : storage :=
  Build_storage (tokens s) (next_id s) v (pending_payments s)
    (collected_fees s) (admin s) (pending_admin s) (platform_fee_percent s)
    (mint_price s) (min_sale_price s) (max_metadata_length s) (max_supply s)
    (paused s).

Definition set_pending_payments (v : gmap address mutez) (s : storage)
  : storage :=
  Build_storage (tokens s) (next_id s) (offers s) v
    (collected_fees s) (admin s) (pending_admin s) (platform_fee_percent s)
    (mint_price s) (min_sale_price s) (max_metadata_length s) (max_supply s)
    (paused s).

Definition set_collected_fees (v : mutez) (s : storage) : storage :=
  Build_storage (tokens s) (next_id s) (offers s) (pending_payments s)
    v (admin s) (pending_admin s) (platform_fee_percent s)
    (mint_price s) (min_sale_price s) (max_metadata_length s) (max_supply s)
    (paused s).

Definition set_admin (v : address) (s : storage) : storage :=
  Build_storage (tokens s) (next_id s) (offers s) (pending_payments s)
    (collected_fees s) v (pending_admin s) (platform_fee_percent s)
    (mint_price s) (min_sale_price s) (max_metadata_length s) (max_supply s)
    (paused s).

Definition set_pending_admin (v : option address) (s : storage) : storage :=
  Build_storage (tokens s) (next_id s) (offers s) (pending_payments s)
    (collected_fees s) (admin s) v (platform_fee_percent s)
    (mint_price s) (min_sale_price s) (max_metadata_length s) (max_supply s)
    (paused s).

Definition set_platform_fee_percent (v : N) (s : storage) : storage :=
  Build_storage (tokens s) (next_id s) (offers s) (pending_payments s)
    (collected_fees s) (admin s) (pending_admin s) v
    (mint_price s) (min_sale_price s) (max_metadata_length s) (max_supply s)
    (paused s).

Definition set_mint_price (v : mutez) (s : storage) : storage :=
  Build_storage (tokens s) (next_id s) (offers s) (pending_payments s)
    (collected_fees s) (admin s) (pending_admin s) (platform_fee_percent s)
    v (min_sale_price s) (max_metadata_length s) (max_supply s)
    (paused s).

Definition set_min_sale_price (v : mutez) (s : storage) : storage :=
  Build_storage (tokens s) (next_id s) (offers s) (pending_payments s)
    (collected_fees s) (admin s) (pending_admin s) (platform_fee_percent s)
    (mint_price s) v (max_metadata_length s) (max_supply s)
    (paused s).

Definition set_paused (v : bool) (s : storage) : storage :=
  Build_storage (tokens s) (next_id s) (offers s) (pending_payments s)
    (collected_fees s) (admin s) (pending_admin s) (platform_fee_percent s)
    (mint_price s) (min_sale_price s) (max_metadata_length s) (max_supply s)
    v.

(** Updates of the fields of a token record ([token.owner = ...]). *)

Definition with_owner (v : address) (t : token_type) : token_type :=
  Build_token_type (metadata t) (author t) v (price t) (for_sale t)
    (royalty_percent t) (created_at t).

Definition with_price (v : mutez) (t : token_type) : token_type :=
  Build_token_type (metadata t) (author t) (owner t) v (for_sale t)
    (royalty_percent t) (created_at t).

Definition with_for_sale (v : bool) (t : token_type) : token_type :=
  Build_token_type (metadata t) (author t) (owner t) (price t) v
    (royalty_percent t) (created_at t).

(** ** The contract monad: abort with a reason, or go on with the storage
    and the operations issued so far *)

Inductive result (A : Type) : Type :=
| Ok (a : A)
| Failwith (reason : string).
Arguments Ok {A} a.
Arguments Failwith {A} reason.

Record machine : Type := {
  data : storage;
  ops : list issued
}.

Definition M (A : Type) : Type := machine -> result (A * machine).

Definition ret {A} (a : A) : M A := fun m => Ok (a, m).

Definition bind {A B} (x : M A) (f : A -> M B) : M B :=
  fun m => match x m with
           | Ok (a, m') => f a m'
           | Failwith e => Failwith e
           end.

Definition fail {A} (reason : string) : M A := fun _ => Failwith reason.

Declare Scope contract_scope.
Delimit Scope contract_scope with contract.
Notation "x ← y ; z" := (bind y (fun x => z))
  (at level 20, y at level 100, z at level 200, only parsing) : contract_scope.
Notation "x ;; z" := (bind x (fun _ => z))
  (at level 100, z at level 200, only parsing, right associativity)
  : contract_scope.
Bind Scope contract_scope with M.
Open Scope contract_scope.

(** Read [self.data]. *)
Definition get : M storage := fun m => Ok (data m, m).

(** Write into [self.data]. *)
Definition modify (f : storage -> storage) : M unit :=
  fun m => Ok (tt, {| data := f (data m); ops := ops m |}).

(** [assert cond, reason] *)
Definition assert_ (cond : bool) (reason : string) : M unit :=
  if cond then ret tt else fail reason.

Definition issue (o : operation) : M unit :=
  fun m => Ok (tt, {| data := data m;
                      ops := ops m ++ [{| op := o; at_issue := data m |}] |}).

(** [sp.send] and [sp.emit] *)
Definition send (dest : address) (amt : mutez) : M unit := issue (Send dest amt).
Definition emit (ev : event) : M unit := issue (Emit ev).

(** [m[k]] on a map: aborts on a missing key. *)
Definition getitem {K V} `{Countable K} (m : gmap K V) (k : K) : M V :=
  match m !! k with
  | Some v => ret v
  | None => fail "missing key"
  end.

(** [k in m] *)
Definition contains {K V} `{Countable K} (k : K) (m : gmap K V) : bool :=
  bool_decide (is_Some (m !! k)).

(** [a - b] on mutez: aborts when the difference is negative. *)
Definition sub_mutez (a b : mutez) : M mutez :=
  if b <=? a then ret (a - b) else fail "mutez subtraction underflow".

(** [sp.split_tokens(amount, quantity, total)] *)
Definition split_tokens (amount quantity total : N) : mutez :=
  amount * quantity / total.

(** [sp.len] on a string *)
Definition len (s : string) : N := N.of_nat (String.length s).

(** [for x in l: body(x)] *)
Fixpoint for_each {A} (l : list A) (body : A -> M unit) : M unit :=
  match l with
  | [] => ret tt
  | x :: l' => body x ;; for_each l' body
  end.

(** Equality tests on addresses ([==], [!=]). *)
Definition addr_eqb (a b : address) : bool := bool_decide (a = b).
Definition addr_neqb (a b : address) : bool := negb (addr_eqb a b).

(** An entrypoint receives the call context and runs in the monad. *)
Definition entrypoint : Type := context -> M unit.

(** Run an entrypoint as one call: either it aborts (and the storage is left
    as it was), or it commits a new storage and the operations it issued. *)
Definition run (e : entrypoint) (ctx : context) (s : storage)
  : result (storage * list issued) :=
  match e ctx {| data := s; ops := [] |} with
  | Ok (_, m) => Ok (data m, ops m)
  | Failwith r => Failwith r
  end.

(** ** The contract *)

Definition burn_address : address := "tz1Ke2h7sDdakHJQh8WX4Z372du1KChsksyU".

(** [__init__]: the originated storage, or the reason the origination fails. *)
Definition init (admin : address) (platform_fee_percent : N)
    (mint_price min_sale_price : mutez) (max_metadata_length max_supply : N)
  : result storage :=
  if negb (platform_fee_percent <=? 20) then Failwith "INIT: Fee too high"
  else if negb (10 <=? max_metadata_length)
  then Failwith "INIT: Metadata length too small"
  else Ok {| tokens := ∅;
             next_id := 0;
             offers := ∅;
             pending_payments := ∅;
             collected_fees := 0;
             admin := admin;
             pending_admin := None;
             platform_fee_percent := platform_fee_percent;
             mint_price := mint_price;
             min_sale_price := min_sale_price;
             max_metadata_length := max_metadata_length;
             max_supply := max_supply;
             paused := false |}.

(** *** Private functions *)

Definition _add_pending (recipient : address) (amount : mutez) : M unit :=
  if 0 <? amount then
    s ← get;
    if contains recipient (pending_payments s) then
      cur ← getitem (pending_payments s) recipient;
      modify (set_pending_payments
                (<[recipient := cur + amount]> (pending_payments s)))
    else
      modify (set_pending_payments
                (<[recipient := amount]> (pending_payments s)))
  else ret tt.

(** *** Minting *)

Definition mint (metadata : string) (royalty_percent : N) : entrypoint :=
  fun ctx =>
  s ← get;
  assert_ (negb (paused s)) "MINT: Contract paused";;
  assert_ (sp_amount ctx =? mint_price s) "MINT: Invalid amount";;
  assert_ (0 <? len metadata) "MINT: Empty metadata";;
  assert_ (len metadata <=? max_metadata_length s) "MINT: Metadata too long";;
  assert_ (royalty_percent <=? 50) "MINT: Royalty too high";;
  (if 0 <? max_supply s
   then assert_ (next_id s <? max_supply s) "MINT: Max supply reached"
   else ret tt);;
  let token_id := next_id s in
  modify (fun s => set_tokens
    (<[token_id := {| metadata := metadata;
                      author := sp_sender ctx;
                      owner := sp_sender ctx;
                      price := 0;
                      for_sale := false;
                      royalty_percent := royalty_percent;
                      created_at := sp_now ctx |}]> (tokens s)) s);;
  modify (fun s => set_next_id (next_id s + 1) s);;
  modify (fun s => set_collected_fees (collected_fees s + sp_amount ctx) s);;
  emit (Mint_event token_id (sp_sender ctx) metadata royalty_percent).

(** *** Listing *)

Definition list_for_sale (token_id : N) (price : mutez) : entrypoint :=
  fun ctx =>
  s ← get;
  assert_ (negb (paused s)) "LIST: Contract paused";;
  assert_ (sp_amount ctx =? 0) "LIST: No tez expected";;
  assert_ (contains token_id (tokens s)) "LIST: Token not found";;
  assert_ (min_sale_price s <=? price) "LIST: Price below minimum";;
  token ← getitem (tokens s) token_id;
  assert_ (addr_eqb (owner token) (sp_sender ctx)) "LIST: Not owner";;
  assert_ (negb (for_sale token)) "LIST: Already listed";;
  let token := with_price price token in
  let token := with_for_sale true token in
  modify (fun s => set_tokens (<[token_id := token]> (tokens s)) s);;
  emit (Listed token_id (sp_sender ctx) price).

Definition update_price (token_id : N) (new_price : mutez) : entrypoint :=
  fun ctx =>
  s ← get;
  assert_ (negb (paused s)) "UPDATE: Contract paused";;
  assert_ (sp_amount ctx =? 0) "UPDATE: No tez expected";;
  assert_ (contains token_id (tokens s)) "UPDATE: Token not found";;
  assert_ (min_sale_price s <=? new_price) "UPDATE: Price below minimum";;
  token ← getitem (tokens s) token_id;
  assert_ (addr_eqb (owner token) (sp_sender ctx)) "UPDATE: Not owner";;
  assert_ (for_sale token) "UPDATE: Not listed";;
  let old_price := price token in
  let token := with_price new_price token in
  modify (fun s => set_tokens (<[token_id := token]> (tokens s)) s);;
  emit (PriceUpdated token_id old_price new_price).

Definition cancel_sale (token_id : N) : entrypoint :=
  fun ctx =>
  s ← get;
  assert_ (sp_amount ctx =? 0) "CANCEL: No tez expected";;
  assert_ (contains token_id (tokens s)) "CANCEL: Token not found";;
  token ← getitem (tokens s) token_id;
  assert_ (addr_eqb (owner token) (sp_sender ctx)) "CANCEL: Not owner";;
  assert_ (for_sale token) "CANCEL: Not listed";;
  let token := with_for_sale false token in
  let token := with_price 0 token in
  modify (fun s => set_tokens (<[token_id := token]> (tokens s)) s);;
  emit (Cancelled token_id (sp_sender ctx)).

(** *** Purchase *)

(** The split computed under "Calculer distribution", written the same way
    in [buy] and in [accept_offer]: royalty, fee and what is left for the
    seller. *)
Definition distribution (price : mutez) (royalty_percent fee_percent : N)
  : M (mutez * mutez * mutez) :=
  let royalty := split_tokens price royalty_percent 100 in
  let fee := split_tokens price fee_percent 100 in
  rest ← sub_mutez price royalty;
  seller_amount ← sub_mutez rest fee;
  ret (royalty, fee, seller_amount).

Definition buy (token_id : N) : entrypoint :=
  fun ctx =>
  s ← get;
  assert_ (negb (paused s)) "BUY: Contract paused";;
  assert_ (contains token_id (tokens s)) "BUY: Token not found";;
  token ← getitem (tokens s) token_id;
  assert_ (for_sale token) "BUY: Not for sale";;
  assert_ (addr_neqb (sp_sender ctx) (owner token)) "BUY: Cannot buy own token";;
  assert_ (sp_amount ctx =? price token) "BUY: Wrong amount";;
  d ← distribution (price token) (royalty_percent token)
        (platform_fee_percent s);
  let '(royalty, fee, seller_amount) := d in
  (* saved before the record is modified *)
  let author_addr := author token in
  let seller_addr := owner token in
  let sale_price := price token in
  (* ownership *)
  let token := with_owner (sp_sender ctx) token in
  let token := with_for_sale false token in
  let token := with_price 0 token in
  modify (fun s => set_tokens (<[token_id := token]> (tokens s)) s);;
  (* pull pattern *)
  modify (fun s => set_collected_fees (collected_fees s + fee) s);;
  (if addr_neqb author_addr seller_addr then
     _add_pending author_addr royalty;;
     _add_pending seller_addr seller_amount
   else
     _add_pending seller_addr (seller_amount + royalty));;
  emit (Sale token_id seller_addr (sp_sender ctx) sale_price royalty fee).

(** *** Offers *)

Definition make_offer (token_id : N) (duration_seconds : Z) : entrypoint :=
  fun ctx =>
  s ← get;
  assert_ (negb (paused s)) "OFFER: Contract paused";;
  assert_ (contains token_id (tokens s)) "OFFER: Token not found";;
  assert_ (0 <? duration_seconds)%Z "OFFER: Invalid duration";;
  assert_ (min_sale_price s <=? sp_amount ctx) "OFFER: Amount too low";;
  token ← getitem (tokens s) token_id;
  assert_ (addr_neqb (sp_sender ctx) (owner token))
    "OFFER: Cannot offer on own token";;
  let new_offer := {| amount := sp_amount ctx;
                      expires_at := (sp_now ctx + duration_seconds)%Z |} in
  (if contains token_id (offers s) then
     token_offers ← getitem (offers s) token_id;
     (if contains (sp_sender ctx) token_offers then
        old_offer ← getitem token_offers (sp_sender ctx);
        _add_pending (sp_sender ctx) (amount old_offer)
      else ret tt);;
     let token_offers := <[sp_sender ctx := new_offer]> token_offers in
     modify (fun s => set_offers (<[token_id := token_offers]> (offers s)) s)
   else
     let empty_map : gmap address offer_type := ∅ in
     let empty_map := <[sp_sender ctx := new_offer]> empty_map in
     modify (fun s => set_offers (<[token_id := empty_map]> (offers s)) s));;
  emit (OfferMade token_id (sp_sender ctx) (sp_amount ctx)
          (expires_at new_offer)).

Definition cancel_offer (token_id : N) : entrypoint :=
  fun ctx =>
  s ← get;
  assert_ (sp_amount ctx =? 0) "CANCEL_OFFER: No tez expected";;
  assert_ (contains token_id (offers s)) "CANCEL_OFFER: No offers on token";;
  token_offers ← getitem (offers s) token_id;
  assert_ (contains (sp_sender ctx) token_offers)
    "CANCEL_OFFER: No offer from you";;
  offer ← getitem token_offers (sp_sender ctx);
  let token_offers := delete (sp_sender ctx) token_offers in
  modify (fun s => set_offers (<[token_id := token_offers]> (offers s)) s);;
  _add_pending (sp_sender ctx) (amount offer);;
  emit (OfferCancelled token_id (sp_sender ctx) (amount offer)).

Definition accept_offer (token_id : N) (buyer : address) : entrypoint :=
  fun ctx =>
  s ← get;
  assert_ (negb (paused s)) "ACCEPT: Contract paused";;
  assert_ (sp_amount ctx =? 0) "ACCEPT: No tez expected";;
  assert_ (contains token_id (tokens s)) "ACCEPT: Token not found";;
  assert_ (contains token_id (offers s)) "ACCEPT: No offers";;
  token ← getitem (tokens s) token_id;
  assert_ (addr_eqb (owner token) (sp_sender ctx)) "ACCEPT: Not owner";;
  token_offers ← getitem (offers s) token_id;
  assert_ (contains buyer token_offers) "ACCEPT: Offer not found";;
  offer ← getitem token_offers buyer;
  assert_ (sp_now ctx <? expires_at offer)%Z "ACCEPT: Offer expired";;
  d ← distribution (amount offer) (royalty_percent token)
        (platform_fee_percent s);
  let '(royalty, fee, seller_amount) := d in
  let author_addr := author token in
  let seller_addr := owner token in
  (* the listing, if any, is withdrawn *)
  let token := with_owner buyer token in
  let token := with_for_sale false token in
  let token := with_price 0 token in
  modify (fun s => set_tokens (<[token_id := token]> (tokens s)) s);;
  (* the offer is removed *)
  let token_offers := delete buyer token_offers in
  modify (fun s => set_offers (<[token_id := token_offers]> (offers s)) s);;
  (* distribution *)
  modify (fun s => set_collected_fees (collected_fees s + fee) s);;
  (if addr_neqb author_addr seller_addr then
     _add_pending author_addr royalty;;
     _add_pending seller_addr seller_amount
   else
     _add_pending seller_addr (seller_amount + royalty));;
  emit (OfferAccepted token_id seller_addr buyer (amount offer)).

(** *** Transfer and burn *)

Definition transfer (token_id : N) (to_ : address) : entrypoint :=
  fun ctx =>
  s ← get;
  assert_ (negb (paused s)) "TRANSFER: Contract paused";;
  assert_ (sp_amount ctx =? 0) "TRANSFER: No tez expected";;
  assert_ (contains token_id (tokens s)) "TRANSFER: Token not found";;
  assert_ (addr_neqb to_ burn_address) "TRANSFER: Cannot send to burn address";;
  assert_ (addr_neqb to_ (sp_sender ctx)) "TRANSFER: Cannot transfer to self";;
  token ← getitem (tokens s) token_id;
  assert_ (addr_eqb (owner token) (sp_sender ctx)) "TRANSFER: Not owner";;
  assert_ (negb (for_sale token)) "TRANSFER: Token is listed";;
  let old_owner := owner token in
  let token := with_owner to_ token in
  modify (fun s => set_tokens (<[token_id := token]> (tokens s)) s);;
  emit (Transfer_event token_id old_owner to_).

(** [token_offers.keys()] *)
Definition keys {V} (m : gmap address V) : list address := (map_to_list m).*1.

Definition burn (token_id : N) : entrypoint :=
  fun ctx =>
  s ← get;
  assert_ (sp_amount ctx =? 0) "BURN: No tez expected";;
  assert_ (contains token_id (tokens s)) "BURN: Token not found";;
  token ← getitem (tokens s) token_id;
  assert_ (addr_eqb (owner token) (sp_sender ctx)) "BURN: Not owner";;
  assert_ (negb (for_sale token)) "BURN: Token is listed";;
  (* the token is removed *)
  modify (fun s => set_tokens (delete token_id (tokens s)) s);;
  (* every offer is refunded *)
  (if contains token_id (offers s) then
     token_offers ← getitem (offers s) token_id;
     for_each (keys token_offers) (fun buyer_addr =>
       offer ← getitem token_offers buyer_addr;
       _add_pending buyer_addr (amount offer));;
     modify (fun s => set_offers (delete token_id (offers s)) s)
   else ret tt);;
  emit (Burn_event token_id (sp_sender ctx)).

(** *** Withdrawals *)

Definition withdraw : entrypoint :=
  fun ctx =>
  s ← get;
  assert_ (sp_amount ctx =? 0) "WITHDRAW: No tez expected";;
  assert_ (contains (sp_sender ctx) (pending_payments s))
    "WITHDRAW: Nothing pending";;
  amount ← getitem (pending_payments s) (sp_sender ctx);
  assert_ (0 <? amount) "WITHDRAW: Zero amount";;
  (* removed BEFORE sending *)
  modify (fun s => set_pending_payments
                     (delete (sp_sender ctx) (pending_payments s)) s);;
  send (sp_sender ctx) amount;;
  emit (Withdrawal (sp_sender ctx) amount).

Definition withdraw_fees : entrypoint :=
  fun ctx =>
  s ← get;
  assert_ (sp_amount ctx =? 0) "FEES: No tez expected";;
  assert_ (addr_eqb (sp_sender ctx) (admin s)) "FEES: Not admin";;
  assert_ (0 <? collected_fees s) "FEES: Nothing to withdraw";;
  let amount := collected_fees s in
  modify (set_collected_fees 0);;
  send (admin s) amount;;
  emit (FeesWithdrawn (admin s) amount).

(** *** Administration *)

Definition set_pause (paused : bool) : entrypoint :=
  fun ctx =>
  s ← get;
  assert_ (sp_amount ctx =? 0) "PAUSE: No tez expected";;
  assert_ (addr_eqb (sp_sender ctx) (admin s)) "PAUSE: Not admin";;
  modify (set_paused paused);;
  emit (PauseChanged paused).

Definition propose_admin (new_admin : address) : entrypoint :=
  fun ctx =>
  s ← get;
  assert_ (sp_amount ctx =? 0) "ADMIN: No tez expected";;
  assert_ (addr_eqb (sp_sender ctx) (admin s)) "ADMIN: Not admin";;
  assert_ (addr_neqb new_admin (admin s)) "ADMIN: Same admin";;
  modify (set_pending_admin (Some new_admin));;
  emit (AdminProposed new_admin).

(** [o.unwrap_some(error=...)] *)
Definition unwrap_some {A} (o : option A) (error : string) : M A :=
  match o with
  | Some a => ret a
  | None => fail error
  end.

Definition accept_admin : entrypoint :=
  fun ctx =>
  s ← get;
  assert_ (sp_amount ctx =? 0) "ADMIN: No tez expected";;
  pending ← unwrap_some (pending_admin s) "ADMIN: No pending";
  assert_ (addr_eqb (sp_sender ctx) pending) "ADMIN: Not proposed admin";;
  let old_admin := admin s in
  modify (set_admin pending);;
  modify (set_pending_admin None);;
  emit (AdminChanged old_admin pending).

Definition cancel_admin_change : entrypoint :=
  fun ctx =>
  s ← get;
  assert_ (sp_amount ctx =? 0) "ADMIN: No tez expected";;
  assert_ (addr_eqb (sp_sender ctx) (admin s)) "ADMIN: Not admin";;
  modify (set_pending_admin None);;
  emit (AdminChangeCancelled true).

Definition update_platform_fee (new_fee : N) : entrypoint :=
  fun ctx =>
  s ← get;
  assert_ (sp_amount ctx =? 0) "FEE: No tez expected";;
  assert_ (addr_eqb (sp_sender ctx) (admin s)) "FEE: Not admin";;
  assert_ (new_fee <=? 20) "FEE: Too high";;
  modify (set_platform_fee_percent new_fee);;
  emit (FeeUpdated new_fee).

Definition update_mint_price (new_price : mutez) : entrypoint :=
  fun ctx =>
  s ← get;
  assert_ (sp_amount ctx =? 0) "PRICE: No tez expected";;
  assert_ (addr_eqb (sp_sender ctx) (admin s)) "PRICE: Not admin";;
  modify (set_mint_price new_price);;
  emit (MintPriceUpdated new_price).

Definition update_min_sale_price (new_price : mutez) : entrypoint :=
  fun ctx =>
  s ← get;
  assert_ (sp_amount ctx =? 0) "PRICE: No tez expected";;
  assert_ (addr_eqb (sp_sender ctx) (admin s)) "PRICE: Not admin";;
  modify (set_min_sale_price new_price);;
  emit (MinSalePriceUpdated new_price).

(** *** On-chain views *)

Definition get_pending (s : storage) (addr : address) : mutez :=
  let result := 0 in
  if contains addr (pending_payments s)
  then default result (pending_payments s !! addr)
  else result.

Definition get_token (token_id : N) : M token_type :=
  s ← get;
  assert_ (contains token_id (tokens s)) "VIEW: Token not found";;
  getitem (tokens s) token_id.

Definition get_owner (token_id : N) : M address :=
  s ← get;
  assert_ (contains token_id (tokens s)) "VIEW: Token not found";;
  token ← getitem (tokens s) token_id;
  ret (owner token).

Definition is_for_sale (token_id : N) : M bool :=
  s ← get;
  let result := false in
  if contains token_id (tokens s) then
    token ← getitem (tokens s) token_id;
    ret (for_sale token)
  else ret result.

Definition get_price (token_id : N) : M mutez :=
  s ← get;
  let result := 0 in
  if contains token_id (tokens s) then
    token ← getitem (tokens s) token_id;
    if for_sale token then ret (price token) else ret result
  else ret result.

Definition get_total_supply : M N :=
  s ← get;
  ret (next_id s).

Definition get_admin : M address :=
  s ← get;
  ret (admin s).

Definition is_paused : M bool :=
  s ← get;
  ret (paused s).

(** The record returned by [get_config]. *)
Record config : Type := {
  config_platform_fee : N;
  config_mint_price : mutez;
  config_min_sale_price : mutez;
  config_max_supply : N
}.

Definition get_config : M config :=
  s ← get;
  ret {| config_platform_fee := platform_fee_percent s;
         config_mint_price := mint_price s;
         config_min_sale_price := min_sale_price s;
         config_max_supply := max_supply s |}.

(** Call a view on a storage: its result, or the reason it fails. *)
Definition view {A} (v : M A) (s : storage) : result A :=
  match v {| data := s; ops := [] |} with
  | Ok (a, _) => Ok a
  | Failwith r => Failwith r
  end.

(** ** Calls and reachable storages *)

Inductive call : Type :=
| Mint (metadata : string) (royalty_percent : N)
| List_for_sale (token_id : N) (price : mutez)
| Update_price (token_id : N) (new_price : mutez)
| Cancel_sale (token_id : N)
| Buy (token_id : N)
| Make_offer (token_id : N) (duration_seconds : Z)
| Cancel_offer (token_id : N)
| Accept_offer (token_id : N) (buyer : address)
| Transfer (token_id : N) (to_ : address)
| Burn (token_id : N)
| Withdraw
| Withdraw_fees
| Set_pause (paused : bool)
| Propose_admin (new_admin : address)
| Accept_admin
| Cancel_admin_change
| Update_platform_fee (new_fee : N)
| Update_mint_price (new_price : mutez)
| Update_min_sale_price (new_price : mutez).

Definition dispatch (c : call) : entrypoint :=
  match c with
  | Mint metadata royalty_percent => mint metadata royalty_percent
  | List_for_sale token_id price => list_for_sale token_id price
  | Update_price token_id new_price => update_price token_id new_price
  | Cancel_sale token_id => cancel_sale token_id
  | Buy token_id => buy token_id
  | Make_offer token_id duration_seconds => make_offer token_id duration_seconds
  | Cancel_offer token_id => cancel_offer token_id
  | Accept_offer token_id buyer => accept_offer token_id buyer
  | Transfer token_id to_ => transfer token_id to_
  | Burn token_id => burn token_id
  | Withdraw => withdraw
  | Withdraw_fees => withdraw_fees
  | Set_pause paused => set_pause paused
  | Propose_admin new_admin => propose_admin new_admin
  | Accept_admin => accept_admin
  | Cancel_admin_change => cancel_admin_change
  | Update_platform_fee new_fee => update_platform_fee new_fee
  | Update_mint_price new_price => update_mint_price new_price
  | Update_min_sale_price new_price => update_min_sale_price new_price
  end.

(** One successful call: the host runs the entrypoint and commits. *)
Definition step (s : storage) (ctx : context) (c : call) (s' : storage)
  : Prop :=
  exists ops, run (dispatch c) ctx s = Ok (s', ops).

(** The storages the contract can be in when only the calls allowed by
    [allowed] are made: the originated one, and whatever a successful
    allowed call makes of such a storage. *)
Inductive reachable_via (allowed : storage -> context -> call -> Prop)
  : storage -> Prop :=
| reachable_init admin fee mint_price min_sale_price max_len max_supply s :
    init admin fee mint_price min_sale_price max_len max_supply = Ok s ->
    reachable_via allowed s
| reachable_step s ctx c s' :
    reachable_via allowed s -> allowed s ctx c -> step s ctx c s' ->
    reachable_via allowed s'.

(** Any successful call is allowed: the reachable storages. *)
Definition any_call (s : storage) (ctx : context) (c : call) : Prop := True.
Definition reachable : storage -> Prop := reachable_via any_call.

(** * Vocabulary of the properties *)

(** ** What [_add_pending] and the refund loop of [burn] do to the ledger,
    as functions on maps *)

Definition credit (recipient : address) (amount : mutez)
    (p : gmap address mutez) : gmap address mutez :=
  if 0 <? amount
  then <[recipient := default 0 (p !! recipient) + amount]> p
  else p.

(** The balance an address reads in a ledger: 0 when it has no entry. *)
Definition balance (p : gmap address mutez) (a : address) : mutez :=
  default 0 (p !! a).

(** What the refund loop of [burn] does to the ledger. *)
Definition refund_all (token_offers : gmap address offer_type)
    (l : list address) (p : gmap address mutez) : gmap address mutez :=
  foldl (fun p b => credit b (default 0 (amount <$> token_offers !! b)) p) p l.

(** ** Predicates on storages and on calls *)

Definition fee_ok (s : storage) : Prop := platform_fee_percent s <= 20.

Definition royalties_ok (s : storage) : Prop :=
  map_Forall (fun _ t => royalty_percent t <= 50) (tokens s).

Definition pending_positive (s : storage) : Prop :=
  map_Forall (fun _ v => 0 < v) (pending_payments s).

Definition listed_above_floor (s : storage) : Prop :=
  forall token_id t,
    tokens s !! token_id = Some t ->
    for_sale t = true -> min_sale_price s <= price t.

(** The calls that do not raise the floor: everything but an
    [update_min_sale_price] to a higher value. *)
Definition floor_not_raised (s : storage) (ctx : context) (c : call) : Prop :=
  match c with
  | Update_min_sale_price new_price => new_price <= min_sale_price s
  | _ => True
  end.

Definition no_burn_owner (s : storage) : Prop :=
  forall token_id t,
    tokens s !! token_id = Some t ->
    owner t <> burn_address /\ author t <> burn_address.

Definition no_burn_bidder (s : storage) : Prop :=
  forall token_id token_offers bidder offer,
    offers s !! token_id = Some token_offers ->
    token_offers !! bidder = Some offer ->
    bidder <> burn_address.

(** The calls that are not made by the burn address. *)
Definition not_from_burn_address (s : storage) (ctx : context) (c : call)
  : Prop :=
  sp_sender ctx <> burn_address.

(** The amount a bidder has on offer for a token: 0 without an offer. *)
Definition offered_amount (s : storage) (token_id : N) (bidder : address)
  : mutez :=
  match offers s !! token_id with
  | Some token_offers => default 0 (amount <$> token_offers !! bidder)
  | None => 0
  end.

(** Token ids are issued by the counter, and the supply cap bounds it. *)
Definition ids_issued (s : storage) : Prop :=
  (forall token_id, is_Some (tokens s !! token_id) -> token_id < next_id s)
  /\ (0 < max_supply s -> next_id s <= max_supply s).

(** A token that is not listed has price 0. *)
Definition unlisted_at_zero (s : storage) : Prop :=
  forall token_id t,
    tokens s !! token_id = Some t -> for_sale t = false -> price t = 0.

(** The proposed administrator is never the administrator. *)
Definition proposal_is_new (s : storage) : Prop :=
  pending_admin s <> Some (admin s).

(** Offers are held only for tokens that exist. *)
Definition offers_on_tokens (s : storage) : Prop :=
  forall token_id, is_Some (offers s !! token_id) ->
                   is_Some (tokens s !! token_id).

(** The calls that start with [assert not self.data.paused]. *)
Definition pause_gated (c : call) : bool :=
  match c with
  | Mint _ _ | List_for_sale _ _ | Update_price _ _ | Buy _
  | Make_offer _ _ | Accept_offer _ _ | Transfer _ _ => true
  | _ => false
  end.

(** ** What the contract owes *)

(** The sum of the weights of the entries of a map. *)
Definition total_with {K A} `{Countable K} (w : A -> N) (m : gmap K A) : N :=
  map_fold (fun _ x acc => w x + acc) 0 m.

(** The amounts held for the pending offers. *)
Definition held_in_offers (s : storage) : mutez :=
  total_with (total_with amount) (offers s).

(** What the contract owes: the pending payments, the collected fees and the
    amounts held for the offers. *)
Definition liabilities (s : storage) : mutez :=
  total_with id (pending_payments s) + collected_fees s + held_in_offers s.

(** The amount sent out by a list of issued operations. *)
Definition sent (o : list issued) : mutez :=
  foldr (fun i acc => match op i with
                      | Send _ amt => amt + acc
                      | Emit _ => acc
                      end) 0 o.

(** The storages reached from origination, with what the calls attached and
    what they sent out so far. *)
Inductive funded : storage -> mutez -> mutez -> Prop :=
| funded_init admin fee mint_price min_sale_price max_len max_supply s :
    init admin fee mint_price min_sale_price max_len max_supply = Ok s ->
    funded s 0 0
| funded_step s received paid ctx c s' o :
    funded s received paid ->
    run (dispatch c) ctx s = Ok (s', o) ->
    funded s' (received + sp_amount ctx) (paid + sent o).

(** ** Scenarios

    Concrete storages obtained by running calls from an originated
    contract; they serve as inputs where a property is evaluated. *)

(** The storage after a call: the committed one, or the old one when the
    call aborts. *)
Definition after (s : storage) (ctx : context) (c : call) : storage :=
  match run (dispatch c) ctx s with
  | Ok (s', _) => s'
  | Failwith _ => s
  end.

Definition commits (s : storage) (ctx : context) (c : call) : bool :=
  match run (dispatch c) ctx s with
  | Ok _ => true
  | Failwith _ => false
  end.

(** The operations issued by a call: none when the call aborts. *)
Definition issued_by (s : storage) (ctx : context) (c : call) : list issued :=
  match run (dispatch c) ctx s with
  | Ok (_, o) => o
  | Failwith _ => []
  end.

Module Scenario.

Definition from (sender : address) (amount : mutez) (now : timestamp)
  : context :=
  {| sp_sender := sender; sp_amount := amount; sp_now := now |}.

(** Fee 5%, mint price 10, price floor 10, unbounded supply. *)
Definition origin : storage :=
  Build_storage ∅ 0 ∅ ∅ 0 "admin" None 5 10 10 256 0 false.

(** alice mints token 0 with 10% royalties, *)
Definition minted : storage :=
  after origin (from "alice" 10 0) (Mint "ipfs://Qm1" 10).
(** lists it at 100, *)
Definition listed : storage :=
  after minted (from "alice" 0 1) (List_for_sale 0 100).
(** and the administrator raises the floor to 200. *)
Definition floor_raised : storage :=
  after listed (from "admin" 0 2) (Update_min_sale_price 200).

(** bob buys the listed token at its price. *)
Definition sold : storage := after listed (from "bob" 100 2) (Buy 0).

(** The burn address mints a token. *)
Definition minted_by_burn_address : storage :=
  after origin (from burn_address 10 0) (Mint "ipfs://Qm1" 10).

(** bob offers 50 for token 0 of alice, valid until time 101, *)
Definition offered : storage :=
  after minted (from "bob" 50 1) (Make_offer 0 100).
(** carol offers 60, *)
Definition offered_twice : storage :=
  after offered (from "carol" 60 2) (Make_offer 0 100).
(** and the administrator raises the floor to 200 while bob's offer is
    pending. *)
Definition offered_below_floor : storage :=
  after offered (from "admin" 0 2) (Update_min_sale_price 200).

(** The administrator proposes bob as the next administrator. *)
Definition proposed : storage :=
  after origin (from "admin" 0 1) (Propose_admin "bob").

(** The contract is paused while the offers of bob and carol are
    pending. *)
Definition paused_with_offers : storage :=
  after offered_twice (from "admin" 0 3) (Set_pause true).

End Scenario.

Module Episode.
(** alice burns her token right after minting it, *)
Definition burned : storage :=
  after Scenario.minted (Scenario.from "alice" 0 1) (Burn 0).
(** and bob mints the next token. *)
Definition minted_again : storage :=
  after burned (Scenario.from "bob" 10 2) (Mint "ipfs://Qm2" 0).
(** The token of alice as minted, as listed, and as bought by bob. *)
Definition token_minted : token_type :=
  {| metadata := "ipfs://Qm1"; author := "alice"; owner := "alice";
     price := 0; for_sale := false; royalty_percent := 10;
     created_at := 0%Z |}.
Definition token_listed : token_type :=
  with_for_sale true (with_price 100 token_minted).
Definition token_sold : token_type :=
  with_price 0 (with_for_sale false (with_owner "bob" token_listed)).
End Episode.

(** * Reasoning principles *)

(** ** The ledger as a map *)

Lemma contains_true {K V} `{Countable K} (k : K) (m : gmap K V) :
  contains k m = true <-> is_Some (m !! k).
Proof. unfold contains. apply bool_decide_eq_true. Qed.

Lemma contains_false {K V} `{Countable K} (k : K) (m : gmap K V) :
  contains k m = false <-> m !! k = None.
Proof.
  unfold contains. rewrite bool_decide_eq_false.
  symmetry. apply eq_None_not_Some.
Qed.

Lemma contains_lookup {K V} `{Countable K} (k : K) (m : gmap K V) v :
  m !! k = Some v -> contains k m = true.
Proof. intros Hv. apply contains_true. eauto. Qed.

Lemma addr_eqb_true a b : addr_eqb a b = true <-> a = b.
Proof. apply bool_decide_eq_true. Qed.

Lemma addr_eqb_false a b : addr_eqb a b = false <-> a <> b.
Proof. apply bool_decide_eq_false. Qed.

Lemma addr_neqb_true a b : addr_neqb a b = true <-> a <> b.
Proof. unfold addr_neqb. rewrite negb_true_iff. apply addr_eqb_false. Qed.

Lemma addr_neqb_false a b : addr_neqb a b = false <-> a = b.
Proof. unfold addr_neqb. rewrite negb_false_iff. apply addr_eqb_true. Qed.

Lemma machine_eta m : {| data := data m; ops := ops m |} = m.
Proof. destruct m; reflexivity. Qed.

Lemma set_pending_payments_id s :
  set_pending_payments (pending_payments s) s = s.
Proof. destruct s; reflexivity. Qed.

Lemma _add_pending_eq recipient amount m :
  _add_pending recipient amount m =
  Ok (tt, {| data := set_pending_payments
                       (credit recipient amount (pending_payments (data m)))
                       (data m);
             ops := ops m |}).
Proof.
  unfold _add_pending, credit. destruct (0 <? amount) eqn:Ha.
  - cbn [bind get]. destruct (contains _ _) eqn:Hc.
    + apply contains_true in Hc as [v Hv]. unfold getitem. rewrite Hv.
      reflexivity.
    + apply contains_false in Hc. rewrite Hc. cbn. rewrite N.add_0_l.
      reflexivity.
  - rewrite set_pending_payments_id, machine_eta. reflexivity.
Qed.

(** ** Equations of [bind], one per primitive of the monad *)

Section bind_equations.
Context {A B : Type} (f : A -> M B) (g : unit -> M B) (m : machine).

Lemma bind_ret a : bind (ret a) f m = f a m.
Proof. reflexivity. Qed.

Lemma bind_bind {C} (x : M C) (h : C -> M A) :
  bind (bind x h) f m = bind x (fun c => bind (h c) f) m.
Proof. unfold bind. destruct (x m) as [[c m']|]; reflexivity. Qed.

Lemma bind_if (c : bool) (x y : M A) :
  bind (if c then x else y) f m = if c then bind x f m else bind y f m.
Proof. destruct c; reflexivity. Qed.

Lemma bind_assert cond reason :
  bind (assert_ cond reason) g m =
  if cond then g tt m else Failwith reason.
Proof. destruct cond; reflexivity. Qed.

Lemma bind_modify h :
  bind (modify h) g m = g tt {| data := h (data m); ops := ops m |}.
Proof. reflexivity. Qed.

Lemma bind_issue o :
  bind (issue o) g m =
  g tt {| data := data m;
          ops := ops m ++ [{| op := o; at_issue := data m |}] |}.
Proof. reflexivity. Qed.

Lemma bind_add_pending recipient amount :
  bind (_add_pending recipient amount) g m =
  g tt {| data := set_pending_payments
                    (credit recipient amount (pending_payments (data m)))
                    (data m);
          ops := ops m |}.
Proof. unfold bind. rewrite _add_pending_eq. reflexivity. Qed.

Lemma bind_getitem {K} `{Countable K} (mp : gmap K A) k :
  bind (getitem mp k) f m =
  match mp !! k with Some v => f v m | None => Failwith "missing key" end.
Proof. unfold bind, getitem. destruct (mp !! k); reflexivity. Qed.

Lemma bind_unwrap_some (o : option A) error :
  bind (unwrap_some o error) f m =
  match o with Some v => f v m | None => Failwith error end.
Proof. destruct o; reflexivity. Qed.
End bind_equations.

Lemma bind_get {B} (f : storage -> M B) m : bind get f m = f (data m) m.
Proof. reflexivity. Qed.

Lemma bind_distribution {B} (f : mutez * mutez * mutez -> M B) p rp fp m :
  bind (distribution p rp fp) f m =
  if (split_tokens p rp 100 <=? p)
     && (split_tokens p fp 100 <=? p - split_tokens p rp 100)
  then f (split_tokens p rp 100, split_tokens p fp 100,
          p - split_tokens p rp 100 - split_tokens p fp 100) m
  else Failwith "mutez subtraction underflow".
Proof.
  unfold distribution, bind, sub_mutez. cbv zeta.
  destruct (_ <=? p); [|reflexivity]. cbn.
  destruct (_ <=? _); reflexivity.
Qed.

Lemma for_each_refund token_offers l m :
  (forall b, b ∈ l -> is_Some (token_offers !! b)) ->
  for_each l (fun buyer_addr =>
      bind (getitem token_offers buyer_addr)
           (fun offer => _add_pending buyer_addr (amount offer))) m =
  Ok (tt, {| data := set_pending_payments
                       (refund_all token_offers l (pending_payments (data m)))
                       (data m);
             ops := ops m |}).
Proof.
  revert m. induction l as [|b l IH]; intros m Hin.
  - cbn. rewrite set_pending_payments_id, machine_eta. reflexivity.
  - cbn [for_each]. destruct (Hin b) as [o Ho]; [left|].
    rewrite bind_bind, bind_getitem, Ho, bind_add_pending.
    rewrite IH by (intros; apply Hin; right; assumption).
    cbn. rewrite Ho. reflexivity.
Qed.

Lemma keys_spec {V} (m : gmap address V) b : b ∈ keys m <-> is_Some (m !! b).
Proof.
  unfold keys. rewrite list_elem_of_fmap. split.
  - intros ([k v] & -> & Hkv). apply elem_of_map_to_list in Hkv. eauto.
  - intros [v Hv]. exists (b, v). split; [reflexivity|].
    apply elem_of_map_to_list. assumption.
Qed.

Lemma bind_for_each_refund {B} (g : unit -> M B) token_offers m :
  bind (for_each (keys token_offers) (fun buyer_addr =>
      bind (getitem token_offers buyer_addr)
           (fun offer => _add_pending buyer_addr (amount offer)))) g m =
  g tt {| data := set_pending_payments
                    (refund_all token_offers (keys token_offers)
                       (pending_payments (data m)))
                    (data m);
          ops := ops m |}.
Proof.
  unfold bind at 1. rewrite for_each_refund; [reflexivity|].
  intros b. apply keys_spec.
Qed.

(** A call commits exactly when its entrypoint runs to the end. *)
Lemma run_Ok e ctx s s' o :
  run e ctx s = Ok (s', o) <->
  exists m, e ctx {| data := s; ops := [] |} = Ok (tt, m)
            /\ s' = data m /\ o = ops m.
Proof.
  unfold run. destruct (e ctx _) as [[[] m]|r]; split.
  - intros [= <- <-]. eauto.
  - intros (m' & [= <-] & -> & ->). reflexivity.
  - discriminate.
  - intros (m' & [=] & _).
Qed.

Lemma run_Failwith e ctx s r :
  run e ctx s = Failwith r <-> e ctx {| data := s; ops := [] |} = Failwith r.
Proof.
  unfold run. destruct (e ctx _) as [[[] m]|r']; split; congruence.
Qed.

(** ** Tactics: run an entrypoint symbolically *)

Ltac storage_simpl :=
  cbn [data ops tokens next_id offers pending_payments collected_fees admin
       pending_admin platform_fee_percent mint_price min_sale_price
       max_metadata_length max_supply paused
       set_tokens set_next_id set_offers set_pending_payments
       set_collected_fees set_admin set_pending_admin
       set_platform_fee_percent set_mint_price set_min_sale_price set_paused
       metadata author owner price for_sale royalty_percent created_at
       with_owner with_price with_for_sale amount expires_at op at_issue
       sp_sender sp_amount sp_now app] in *.

Ltac mrewrite_in H :=
  progress
    (rewrite ?bind_get, ?bind_ret, ?bind_bind, ?bind_if, ?bind_assert,
       ?bind_modify, ?bind_issue, ?bind_add_pending, ?bind_getitem,
       ?bind_unwrap_some, ?bind_distribution, ?bind_for_each_refund,
       ?_add_pending_eq in H;
     unfold emit, send in H; cbv beta zeta in H; cbn [data ops app] in H).

Ltac mrun H :=
  repeat first
    [ mrewrite_in H
    | match type of H with
      | Failwith _ = Ok _ => discriminate H
      | (if ?b then _ else _) = Ok _ => destruct b eqn:?
      | match ?o with Some _ => _ | None => _ end = Ok _ => destruct o eqn:?
      | issue _ _ = Ok _ => unfold issue in H; cbn [data ops app] in H
      | ret _ _ = Ok _ => unfold ret in H
      | Ok (tt, _) = Ok (tt, ?m) => injection H as H; subst m
      end ];
  storage_simpl.

Ltac unfold_entry H :=
  cbn [dispatch] in H;
  unfold mint, list_for_sale, update_price, cancel_sale, buy, make_offer,
    cancel_offer, accept_offer, transfer, burn, withdraw, withdraw_fees,
    set_pause, propose_admin, accept_admin, cancel_admin_change,
    update_platform_fee, update_mint_price, update_min_sale_price in H.

(** From [H : run e ctx s = Ok (s', o)], replace [s'] and [o] by what the
    entrypoint computed and leave the checks it passed as hypotheses. *)
Ltac run_inv H :=
  let m := fresh "m" in
  apply run_Ok in H as (m & H & -> & ->); unfold_entry H; mrun H.

Ltac bool_to_prop :=
  repeat match goal with
    | H : _ && _ = true |- _ => apply andb_true_iff in H as [? ?]
    | H : negb _ = true |- _ => apply negb_true_iff in H
    | H : negb _ = false |- _ => apply negb_false_iff in H
    | H : N.leb _ _ = true |- _ => apply N.leb_le in H
    | H : N.leb _ _ = false |- _ => apply N.leb_gt in H
    | H : N.ltb _ _ = true |- _ => apply N.ltb_lt in H
    | H : N.ltb _ _ = false |- _ => apply N.ltb_ge in H
    | H : N.eqb _ _ = true |- _ => apply N.eqb_eq in H
    | H : N.eqb _ _ = false |- _ => apply N.eqb_neq in H
    | H : Z.ltb _ _ = true |- _ => apply Z.ltb_lt in H
    | H : Z.ltb _ _ = false |- _ => apply Z.ltb_ge in H
    | H : addr_eqb _ _ = true |- _ => apply addr_eqb_true in H
    | H : addr_eqb _ _ = false |- _ => apply addr_eqb_false in H
    | H : addr_neqb _ _ = true |- _ => apply addr_neqb_true in H
    | H : addr_neqb _ _ = false |- _ => apply addr_neqb_false in H
    | H : contains _ _ = true |- _ => apply contains_true in H
    | H : contains _ _ = false |- _ => apply contains_false in H
    end.

(** * Invariants of the reachable storages *)

Lemma init_Ok admin fee mint_price min_sale_price max_len max_supply s :
  init admin fee mint_price min_sale_price max_len max_supply = Ok s ->
  fee <= 20 /\ 10 <= max_len /\
  s = Build_storage ∅ 0 ∅ ∅ 0 admin None fee mint_price min_sale_price
        max_len max_supply false.
Proof.
  unfold init. destruct (fee <=? 20) eqn:Hf; [|discriminate].
  destruct (10 <=? max_len) eqn:Hl; [|discriminate].
  cbn. intros [= <-]. bool_to_prop. auto.
Qed.

(** ** The percentages stay within their bounds *)

Lemma fee_ok_step s ctx c s' : fee_ok s -> step s ctx c s' -> fee_ok s'.
Proof.
  unfold fee_ok. intros Hs [o H].
  destruct c; run_inv H; bool_to_prop; assumption.
Qed.

Lemma royalties_ok_step s ctx c s' :
  royalties_ok s -> step s ctx c s' -> royalties_ok s'.
Proof.
  unfold royalties_ok. intros Hs [o H]. destruct c; run_inv H;
    try assumption;
    try (apply map_Forall_delete; assumption);
    (apply map_Forall_insert_2; [|assumption]);
    try match goal with
      | Ht : tokens _ !! _ = Some _ |- _ =>
          apply (map_Forall_lookup_1 _ _ _ _ Hs) in Ht
      end;
    storage_simpl; bool_to_prop; assumption.
Qed.

Lemma reachable_via_bounds allowed s :
  reachable_via allowed s -> fee_ok s /\ royalties_ok s.
Proof.
  induction 1 as [? ? ? ? ? ? s Hi|s ctx c s' _ [IHf IHr] _ Hstep].
  - apply init_Ok in Hi as (Hf & _ & ->). split; [exact Hf|].
    apply map_Forall_empty.
  - split; [eapply fee_ok_step|eapply royalties_ok_step]; eassumption.
Qed.

(** With the percentages within bounds the two subtractions of the split
    never underflow. *)
Lemma split_tokens_le p q : q <= 100 -> split_tokens p q 100 <= p.
Proof.
  intros Hq. unfold split_tokens.
  apply N.Div0.div_le_upper_bound. nia.
Qed.

Lemma split_tokens_sum_le p rp fp :
  rp <= 50 -> fp <= 20 ->
  split_tokens p rp 100 + split_tokens p fp 100 <= p.
Proof.
  intros Hr Hf. unfold split_tokens.
  assert (p * rp / 100 + p * fp / 100 <= (p * rp + p * fp) / 100) as Hsum.
  { rewrite <- (N.div_mul (p * rp / 100 + p * fp / 100) 100) by lia.
    apply N.Div0.div_le_mono.
    pose proof (N.Div0.mul_div_le (p * rp) 100).
    pose proof (N.Div0.mul_div_le (p * fp) 100). lia. }
  etransitivity; [exact Hsum|].
  apply N.Div0.div_le_upper_bound. nia.
Qed.

Lemma distribution_guard p rp fp :
  rp <= 50 -> fp <= 20 ->
  (split_tokens p rp 100 <=? p)
  && (split_tokens p fp 100 <=? p - split_tokens p rp 100) = true.
Proof.
  intros Hr Hf. pose proof (split_tokens_sum_le p rp fp Hr Hf).
  apply andb_true_iff. split; apply N.leb_le; lia.
Qed.

(** ** Every entry of the ledger is positive *)

Lemma credit_positive recipient amount (p : gmap address mutez) :
  map_Forall (fun _ v => 0 < v) p ->
  map_Forall (fun _ v => 0 < v) (credit recipient amount p).
Proof.
  intros Hp. unfold credit. destruct (0 <? amount) eqn:Ha; [|exact Hp].
  apply N.ltb_lt in Ha. apply map_Forall_insert_2; [lia|exact Hp].
Qed.

Lemma refund_all_positive token_offers l (p : gmap address mutez) :
  map_Forall (fun _ v => 0 < v) p ->
  map_Forall (fun _ v => 0 < v) (refund_all token_offers l p).
Proof.
  revert p. induction l as [|b l IH]; intros p Hp; [exact Hp|].
  cbn. apply IH, credit_positive, Hp.
Qed.

Lemma pending_positive_step s ctx c s' :
  pending_positive s -> step s ctx c s' -> pending_positive s'.
Proof.
  unfold pending_positive. intros Hs [o H]. destruct c; run_inv H;
    repeat first
      [ assumption
      | apply credit_positive
      | apply refund_all_positive
      | apply map_Forall_delete ].
Qed.

Lemma reachable_via_pending_positive allowed s :
  reachable_via allowed s -> pending_positive s.
Proof.
  induction 1 as [? ? ? ? ? ? s Hi|s ctx c s' _ IH _ Hstep].
  - apply init_Ok in Hi as (_ & _ & ->). apply map_Forall_empty.
  - eapply pending_positive_step; eassumption.
Qed.

(** ** Listed prices and the floor *)

Lemma listed_above_floor_insert s token_id t :
  listed_above_floor s ->
  (for_sale t = true -> min_sale_price s <= price t) ->
  forall i t', <[token_id := t]> (tokens s) !! i = Some t' ->
               for_sale t' = true -> min_sale_price s <= price t'.
Proof.
  intros Hs Ht i t' Hi. apply lookup_insert_Some in Hi as [[_ <-]|[_ Hi]].
  - exact Ht.
  - exact (Hs i t' Hi).
Qed.

Lemma listed_above_floor_step s ctx c s' :
  listed_above_floor s -> floor_not_raised s ctx c -> step s ctx c s' ->
  listed_above_floor s'.
Proof.
  intros Hs Hc [o H]. unfold listed_above_floor.
  destruct c; run_inv H; bool_to_prop; try exact Hs;
    try (apply listed_above_floor_insert; [exact Hs|]; storage_simpl;
         first [discriminate | intros _; assumption | idtac]).
  - (* transfer *)
    match goal with Ht : tokens s !! _ = Some _ |- _ => exact (Hs _ _ Ht) end.
  - (* burn, offers on the token *)
    intros i t' Hi. apply lookup_delete_Some in Hi as [_ Hi]. exact (Hs i t' Hi).
  - (* burn, no offers *)
    intros i t' Hi. apply lookup_delete_Some in Hi as [_ Hi]. exact (Hs i t' Hi).
  - (* update_min_sale_price *)
    cbn in Hc. intros i t' Hi Hl. specialize (Hs i t' Hi Hl). lia.
Qed.

(** ** The burn address *)

Lemma no_burn_owner_insert s token_id t :
  no_burn_owner s ->
  owner t <> burn_address -> author t <> burn_address ->
  forall i t', <[token_id := t]> (tokens s) !! i = Some t' ->
               owner t' <> burn_address /\ author t' <> burn_address.
Proof.
  intros Hs Ho Ha i t' Hi. apply lookup_insert_Some in Hi as [[_ <-]|[_ Hi]].
  - split; assumption.
  - exact (Hs i t' Hi).
Qed.

Lemma no_burn_bidder_insert s token_id (token_offers : gmap address offer_type) :
  no_burn_bidder s ->
  (forall bidder offer, token_offers !! bidder = Some offer ->
                        bidder <> burn_address) ->
  forall i m bidder offer,
    <[token_id := token_offers]> (offers s) !! i = Some m ->
    m !! bidder = Some offer -> bidder <> burn_address.
Proof.
  intros Hs Hm i m bidder offer Hi.
  apply lookup_insert_Some in Hi as [[_ <-]|[_ Hi]].
  - apply Hm.
  - exact (Hs i m bidder offer Hi).
Qed.

Lemma no_burn_step s ctx c s' :
  no_burn_owner s /\ no_burn_bidder s ->
  not_from_burn_address s ctx c -> step s ctx c s' ->
  no_burn_owner s' /\ no_burn_bidder s'.
Proof.
  intros [Ht Ho] Hc [o H]. unfold not_from_burn_address in Hc.
  unfold no_burn_owner, no_burn_bidder.
  destruct c; run_inv H; bool_to_prop; (split; [|]); try exact Ht; try exact Ho;
    try match goal with
      | Hl : tokens s !! _ = Some ?t |- _ => pose proof (Ht _ _ Hl) as [? ?]
      end;
    try (apply no_burn_owner_insert; [exact Ht| |]; storage_simpl; assumption).
  - (* make_offer, replacing or adding to the offers of the token *)
    apply no_burn_bidder_insert; [exact Ho|]. intros b ofr Hb.
    apply lookup_insert_Some in Hb as [[<- _]|[_ Hb]]; [exact Hc|].
    eapply Ho; eassumption.
  - apply no_burn_bidder_insert; [exact Ho|]. intros b ofr Hb.
    apply lookup_insert_Some in Hb as [[<- _]|[_ Hb]]; [exact Hc|].
    eapply Ho; eassumption.
  - (* make_offer, first offer on the token *)
    apply no_burn_bidder_insert; [exact Ho|]. intros b ofr Hb.
    apply lookup_insert_Some in Hb as [[<- _]|[_ Hb]]; [exact Hc|].
    rewrite lookup_empty in Hb. discriminate.
  - (* cancel_offer *)
    apply no_burn_bidder_insert; [exact Ho|]. intros b ofr Hb.
    apply lookup_delete_Some in Hb as [_ Hb]. eapply Ho; eassumption.
  - (* accept_offer: the new owner made an offer *)
    apply no_burn_owner_insert; [exact Ht| |]; storage_simpl; [|assumption].
    eapply Ho; eassumption.
  - apply no_burn_bidder_insert; [exact Ho|]. intros b ofr Hb.
    apply lookup_delete_Some in Hb as [_ Hb]. eapply Ho; eassumption.
  - apply no_burn_owner_insert; [exact Ht| |]; storage_simpl; [|assumption].
    eapply Ho; eassumption.
  - apply no_burn_bidder_insert; [exact Ho|]. intros b ofr Hb.
    apply lookup_delete_Some in Hb as [_ Hb]. eapply Ho; eassumption.
  - (* burn *)
    intros i t' Hi. apply lookup_delete_Some in Hi as [_ Hi]. exact (Ht i t' Hi).
  - intros i m b ofr Hi. apply lookup_delete_Some in Hi as [_ Hi].
    exact (Ho i m b ofr Hi).
  - intros i t' Hi. apply lookup_delete_Some in Hi as [_ Hi]. exact (Ht i t' Hi).
Qed.

(** Symbolic run of an entrypoint whose outcome is not known to be a
    success: every check is split into its two outcomes. *)
Ltac mrun_cases H :=
  repeat first
    [ mrewrite_in H
    | match type of H with
      | (if ?b then _ else _) = _ => destruct b eqn:?
      | match ?o with Some _ => _ | None => _ end = _ => destruct o eqn:?
      | issue _ _ = _ => unfold issue in H; cbn [data ops app] in H
      | ret _ _ = _ => unfold ret in H
      end ];
  storage_simpl.

(** * The scenarios are reachable *)

Lemma step_after s ctx c : commits s ctx c = true -> step s ctx c (after s ctx c).
Proof.
  unfold commits, after, step.
  destruct (run (dispatch c) ctx s) as [[s' o]|]; [eauto|discriminate].
Qed.

Lemma reachable_via_after allowed s ctx c :
  reachable_via allowed s -> allowed s ctx c -> commits s ctx c = true ->
  reachable_via allowed (after s ctx c).
Proof.
  intros Hs Ha Hc. eapply reachable_step; [exact Hs|exact Ha|].
  apply step_after, Hc.
Qed.

Lemma scenario_init_origin : init "admin" 5 10 10 256 0 = Ok Scenario.origin.
Proof. reflexivity. Qed.

Ltac scenario_step := apply reachable_via_after; [|exact I|vm_compute; reflexivity].

Lemma scenario_origin_reachable : reachable Scenario.origin.
Proof. eapply reachable_init, scenario_init_origin. Qed.

Lemma scenario_minted_reachable : reachable Scenario.minted.
Proof. scenario_step. exact scenario_origin_reachable. Qed.

Lemma scenario_listed_reachable : reachable Scenario.listed.
Proof. scenario_step. exact scenario_minted_reachable. Qed.

Lemma scenario_floor_raised_reachable : reachable Scenario.floor_raised.
Proof. scenario_step. exact scenario_listed_reachable. Qed.

Lemma scenario_sold_reachable : reachable Scenario.sold.
Proof. scenario_step. exact scenario_listed_reachable. Qed.

Lemma scenario_minted_by_burn_address_reachable : reachable Scenario.minted_by_burn_address.
Proof. scenario_step. exact scenario_origin_reachable. Qed.

Lemma scenario_offered_reachable : reachable Scenario.offered.
Proof. scenario_step. exact scenario_minted_reachable. Qed.

Lemma scenario_offered_twice_reachable : reachable Scenario.offered_twice.
Proof. scenario_step. exact scenario_offered_reachable. Qed.

Lemma scenario_offered_below_floor_reachable : reachable Scenario.offered_below_floor.
Proof. scenario_step. exact scenario_offered_reachable. Qed.

Lemma scenario_proposed_reachable : reachable Scenario.proposed.
Proof. scenario_step. exact scenario_origin_reachable. Qed.

Lemma scenario_paused_with_offers_reachable :
  reachable Scenario.paused_with_offers.
Proof. scenario_step. exact scenario_offered_twice_reachable. Qed.

(** * The claims *)

(** ** C1: listed prices and the floor *)

(** C1, as stated, fails: after alice lists her token at 100 and the
    administrator raises the floor to 200, a reachable storage holds a listed
    token priced below [min_sale_price]. *)
Lemma raising_floor_breaks_listed_above_floor :
  ~ (forall s, reachable s -> listed_above_floor s).
Proof.
  intros H.
  specialize (H Scenario.floor_raised scenario_floor_raised_reachable 0
                {| metadata := "ipfs://Qm1"; author := "alice";
                   owner := "alice"; price := 100; for_sale := true;
                   royalty_percent := 10; created_at := 0%Z |}).
  vm_compute in H. apply H; reflexivity.
Qed.

(** C1, amended: in every storage reached from origination by successful
    calls none of which is an [update_min_sale_price] that raises the floor,
    every token whose [for_sale] flag is true has a price of at least the
    current [min_sale_price]. *)
Theorem listed_above_floor_when_floor_not_raised s :
  reachable_via floor_not_raised s -> listed_above_floor s.
Proof.
  induction 1 as [? ? ? ? ? ? s Hi|s ctx c s' _ IH Hc Hstep].
  - apply init_Ok in Hi as (_ & _ & ->). intros i t Hi.
    cbn in Hi. rewrite lookup_empty in Hi. discriminate.
  - eapply listed_above_floor_step; eassumption.
Qed.

Lemma listed_above_floor_when_floor_not_raised_witness :
  listed_above_floor Scenario.listed.
Proof.
  apply listed_above_floor_when_floor_not_raised.
  apply reachable_via_after; [|exact I|vm_compute; reflexivity].
  apply reachable_via_after; [|exact I|vm_compute; reflexivity].
  eapply reachable_init, scenario_init_origin.
Defined.

(** ** C2: the burn address *)

(** C2, as stated, fails: nothing stops the burn address from minting, and
    the token it mints has it as owner and author. *)
Lemma burn_address_can_mint :
  ~ (forall s, reachable s -> no_burn_owner s).
Proof.
  intros H.
  specialize (H Scenario.minted_by_burn_address
                scenario_minted_by_burn_address_reachable 0
                {| metadata := "ipfs://Qm1"; author := burn_address;
                   owner := burn_address; price := 0; for_sale := false;
                   royalty_percent := 10; created_at := 0%Z |}).
  destruct H as [H _]; [vm_compute; reflexivity|]. apply H. reflexivity.
Qed.

Lemma transfer_to_burn_address_aborts s ctx token_id :
  exists reason, run (transfer token_id burn_address) ctx s = Failwith reason.
Proof.
  destruct (run (transfer token_id burn_address) ctx s) as [[s' o]|reason] eqn:H;
    [|eauto].
  exfalso. run_inv H. bool_to_prop. congruence.
Qed.

(** C2, amended: in every storage reached from origination by successful
    calls none of which is made by the burn address, no token has the burn
    address as owner or author; and [transfer(id, to)] with [to] the burn
    address aborts, whoever calls it. *)
Theorem no_burn_owner_when_burn_address_never_calls s :
  reachable_via not_from_burn_address s ->
  no_burn_owner s /\
  (forall ctx token_id,
      exists reason,
        run (transfer token_id burn_address) ctx s = Failwith reason).
Proof.
  intros Hs. split; [|intros; apply transfer_to_burn_address_aborts].
  enough (no_burn_owner s /\ no_burn_bidder s) as [? _] by assumption.
  induction Hs as [? ? ? ? ? ? s Hi|s ctx c s' _ IH Hc Hstep].
  - apply init_Ok in Hi as (_ & _ & ->). split.
    + intros i t Hi. cbn in Hi. rewrite lookup_empty in Hi. discriminate.
    + intros i m b ofr Hi. cbn in Hi. rewrite lookup_empty in Hi. discriminate.
  - eapply no_burn_step; eassumption.
Qed.

Lemma no_burn_owner_when_burn_address_never_calls_witness :
  no_burn_owner Scenario.sold /\
  (forall ctx token_id,
      exists reason,
        run (transfer token_id burn_address) ctx Scenario.sold
        = Failwith reason).
Proof.
  apply no_burn_owner_when_burn_address_never_calls.
  apply reachable_via_after; [|vm_compute; discriminate|vm_compute; reflexivity].
  apply reachable_via_after; [|vm_compute; discriminate|vm_compute; reflexivity].
  apply reachable_via_after; [|vm_compute; discriminate|vm_compute; reflexivity].
  eapply reachable_init, scenario_init_origin.
Defined.

(** ** C10: the ledger holds positive amounts only *)

(** C10: in every reachable storage every entry of the pending-payments
    ledger is strictly positive, so [withdraw] never aborts with
    "WITHDRAW: Zero amount". *)
Theorem pending_entries_positive s :
  reachable s ->
  (forall a v, pending_payments s !! a = Some v -> 0 < v) /\
  (forall ctx, run withdraw ctx s <> Failwith "WITHDRAW: Zero amount").
Proof.
  intros Hs. apply reachable_via_pending_positive in Hs. split.
  - exact Hs.
  - intros ctx H. apply run_Failwith in H. unfold withdraw in H.
    mrun_cases H; try discriminate.
    bool_to_prop.
    match goal with Hv : pending_payments s !! _ = Some _ |- _ =>
      apply Hs in Hv end.
    lia.
Qed.

Lemma pending_entries_positive_witness :
  (forall a v, pending_payments Scenario.sold !! a = Some v -> 0 < v) /\
  (forall ctx, run withdraw ctx Scenario.sold
               <> Failwith "WITHDRAW: Zero amount").
Proof.
  apply pending_entries_positive. exact scenario_sold_reachable.
Defined.

(** ** C4: the split *)



(** ** Balances read in the ledger *)

Lemma get_pending_balance s a :
  get_pending s a = balance (pending_payments s) a.
Proof.
  unfold get_pending, balance. destruct (contains _ _) eqn:Hc; [reflexivity|].
  apply contains_false in Hc. rewrite Hc. reflexivity.
Qed.

Lemma balance_credit recipient amount p a :
  balance (credit recipient amount p) a =
  balance p a + (if decide (a = recipient) then amount else 0).
Proof.
  unfold credit, balance. destruct (0 <? amount) eqn:Ha.
  - destruct (decide (a = recipient)) as [->|Hne].
    + rewrite lookup_insert_eq. reflexivity.
    + rewrite lookup_insert_ne by congruence. lia.
  - apply N.ltb_ge in Ha. destruct (decide (a = recipient)); lia.
Qed.

Lemma credit_other recipient amount (p : gmap address mutez) a :
  a <> recipient -> credit recipient amount p !! a = p !! a.
Proof.
  intros Hne. unfold credit. destruct (0 <? amount); [|reflexivity].
  apply lookup_insert_ne. congruence.
Qed.

Lemma refund_all_cons token_offers b l p :
  refund_all token_offers (b :: l) p =
  refund_all token_offers l
    (credit b (default 0 (amount <$> token_offers !! b)) p).
Proof. reflexivity. Qed.

Lemma balance_refund_all token_offers l p a :
  NoDup l ->
  balance (refund_all token_offers l p) a =
  balance p a
  + (if decide (a ∈ l) then default 0 (amount <$> token_offers !! a) else 0).
Proof.
  intros Hl. revert p. induction Hl as [|b l Hb Hl IH]; intros p.
  - cbn. destruct (decide (a ∈ [])) as [Hin|_]; [inversion Hin|lia].
  - rewrite refund_all_cons, IH, balance_credit.
    destruct (decide (a = b)) as [->|Hne].
    + rewrite decide_False by exact Hb.
      rewrite decide_True by left. lia.
    + destruct (decide (a ∈ l)) as [Hin|Hnin].
      * rewrite decide_True by (right; exact Hin). lia.
      * rewrite decide_False; [lia|].
        intros Hin. apply elem_of_cons in Hin as [?|?]; contradiction.
Qed.

Lemma balance_refund_all_keys token_offers p a :
  balance (refund_all token_offers (keys token_offers) p) a =
  balance p a + default 0 (amount <$> token_offers !! a).
Proof.
  rewrite balance_refund_all by apply NoDup_fst_map_to_list.
  destruct (decide (a ∈ keys token_offers)) as [_|Hnin]; [reflexivity|].
  rewrite keys_spec, <- eq_None_not_Some in Hnin. rewrite Hnin. reflexivity.
Qed.

(** ** C3: withdrawal *)

(** C3, as stated, fails: [withdraw] also aborts when a payment is attached
    to the call, even though the caller has a positive pending balance. *)
Lemma withdraw_with_payment_aborts :
  ~ (forall ctx s,
        reachable s ->
        (exists reason, run withdraw ctx s = Failwith reason) <->
        (pending_payments s !! sp_sender ctx = None
         \/ pending_payments s !! sp_sender ctx = Some 0)).
Proof.
  intros H.
  destruct (H (Scenario.from "alice" 1 3) Scenario.sold
              scenario_sold_reachable) as [H1 _].
  destruct H1 as [H1|H1].
  - exists "WITHDRAW: No tez expected". vm_compute. reflexivity.
  - vm_compute in H1. discriminate.
  - vm_compute in H1. discriminate.
Qed.

(** C3, amended: [withdraw()] aborts if and only if a payment is attached to
    the call, the caller has no pending-balance entry, or its amount is
    zero; on success the caller's entry is deleted, the transfer of that
    amount is issued on a storage that no longer holds the entry, and any
    further [withdraw()] by the same caller on the resulting storage aborts,
    so nothing is paid twice. *)
Theorem withdraw_once ctx s :
  ((exists reason, run withdraw ctx s = Failwith reason) <->
   (sp_amount ctx <> 0
    \/ pending_payments s !! sp_sender ctx = None
    \/ pending_payments s !! sp_sender ctx = Some 0))
  /\ (forall s' o,
        run withdraw ctx s = Ok (s', o) ->
        exists amount,
          pending_payments s !! sp_sender ctx = Some amount
          /\ 0 < amount
          /\ pending_payments s' = delete (sp_sender ctx) (pending_payments s)
          /\ op <$> o = [Send (sp_sender ctx) amount;
                         Emit (Withdrawal (sp_sender ctx) amount)]
          /\ Forall (fun i => pending_payments (at_issue i) !! sp_sender ctx
                              = None) o
          /\ (forall ctx',
                 sp_sender ctx' = sp_sender ctx ->
                 exists reason, run withdraw ctx' s' = Failwith reason)).
Proof.
  split; [split|].
  - intros [reason H]. apply run_Failwith in H. unfold withdraw in H.
    mrun_cases H; bool_to_prop; try discriminate; auto.
    right; right. f_equal. lia.
  - intros Hc. destruct (run withdraw ctx s) as [[s' o]|reason] eqn:H;
      [exfalso|eauto].
    run_inv H. bool_to_prop. destruct Hc as [Hc|[Hc|Hc]].
    + lia.
    + discriminate.
    + injection Hc as ->. lia.
  - intros s' o H. run_inv H. bool_to_prop. eexists. split; [reflexivity|].
    split; [assumption|]. split; [reflexivity|]. split; [reflexivity|].
    split.
    + repeat constructor; storage_simpl; apply lookup_delete_eq.
    + intros ctx' Hsender.
      destruct (run withdraw ctx' _) as [[s'' o']|reason] eqn:H'; [|eauto].
      exfalso. run_inv H'. rewrite Hsender in *.
      match goal with Hv : delete _ _ !! _ = Some _ |- _ =>
        rewrite lookup_delete_eq in Hv; discriminate end.
Qed.

Lemma withdraw_once_witness :
  exists amount,
    pending_payments Scenario.sold !! "alice" = Some amount
    /\ 0 < amount
    /\ pending_payments (after Scenario.sold (Scenario.from "alice" 0 3) Withdraw)
       = delete "alice" (pending_payments Scenario.sold)
    /\ op <$> [ {| op := Send "alice" 95;
                   at_issue := after Scenario.sold
                                 (Scenario.from "alice" 0 3) Withdraw |};
                {| op := Emit (Withdrawal "alice" 95);
                   at_issue := after Scenario.sold
                                 (Scenario.from "alice" 0 3) Withdraw |} ]
       = [Send "alice" amount; Emit (Withdrawal "alice" amount)]
    /\ Forall (fun i => pending_payments (at_issue i) !! "alice" = None)
         [ {| op := Send "alice" 95;
              at_issue := after Scenario.sold
                            (Scenario.from "alice" 0 3) Withdraw |};
           {| op := Emit (Withdrawal "alice" 95);
              at_issue := after Scenario.sold
                            (Scenario.from "alice" 0 3) Withdraw |} ]
    /\ (forall ctx',
           sp_sender ctx' = "alice" ->
           exists reason,
             run withdraw ctx'
               (after Scenario.sold (Scenario.from "alice" 0 3) Withdraw)
             = Failwith reason).
Proof.
  apply (proj2 (withdraw_once (Scenario.from "alice" 0 3) Scenario.sold)).
  vm_compute. reflexivity.
Defined.

(** ** C5: direct purchase *)

Lemma lookup_bounds allowed s token_id t :
  reachable_via allowed s -> tokens s !! token_id = Some t ->
  (split_tokens (price t) (royalty_percent t) 100 <=? price t)
  && (split_tokens (price t) (platform_fee_percent s) 100 <=?
      price t - split_tokens (price t) (royalty_percent t) 100) = true.
Proof.
  intros Hs Ht. apply reachable_via_bounds in Hs as [Hf Hr].
  apply distribution_guard; [|exact Hf]. exact (Hr _ _ Ht).
Qed.

Lemma offer_bounds allowed s token_id t p :
  reachable_via allowed s -> tokens s !! token_id = Some t ->
  (split_tokens p (royalty_percent t) 100 <=? p)
  && (split_tokens p (platform_fee_percent s) 100 <=?
      p - split_tokens p (royalty_percent t) 100) = true.
Proof.
  intros Hs Ht. apply reachable_via_bounds in Hs as [Hf Hr].
  apply distribution_guard; [|exact Hf]. exact (Hr _ _ Ht).
Qed.

(** C5: on a reachable storage [buy(id)] aborts exactly when the contract is
    paused, the id is unknown, the token is not listed, the caller is its
    owner, or the attached payment differs from the listed price. On success
    the token's owner becomes the caller, [for_sale] becomes false and
    [price] 0, the fee is added to [collected_fees], and the royalty and the
    seller amount are credited to the pending balances of the author and of
    the seller, as one credit of [seller_amount + royalty] to the seller
    when the author is the seller. *)
Theorem buy_spec s ctx token_id :
  reachable s ->
  ((exists reason, run (buy token_id) ctx s = Failwith reason) <->
   (paused s = true
    \/ tokens s !! token_id = None
    \/ exists t, tokens s !! token_id = Some t
                 /\ (for_sale t = false
                     \/ sp_sender ctx = owner t
                     \/ sp_amount ctx <> price t)))
  /\ (forall s' o,
        run (buy token_id) ctx s = Ok (s', o) ->
        exists t royalty fee seller_amount,
          tokens s !! token_id = Some t
          /\ royalty = price t * royalty_percent t / 100
          /\ fee = price t * platform_fee_percent s / 100
          /\ royalty + fee + seller_amount = price t
          /\ tokens s' =
             <[token_id := with_price 0 (with_for_sale false
                             (with_owner (sp_sender ctx) t))]> (tokens s)
          /\ collected_fees s' = collected_fees s + fee
          /\ (author t <> owner t ->
              get_pending s' (author t) = get_pending s (author t) + royalty
              /\ get_pending s' (owner t)
                 = get_pending s (owner t) + seller_amount
              /\ forall a, a <> author t -> a <> owner t ->
                           pending_payments s' !! a = pending_payments s !! a)
          /\ (author t = owner t ->
              pending_payments s'
              = credit (owner t) (seller_amount + royalty) (pending_payments s)
              /\ get_pending s' (owner t)
                 = get_pending s (owner t) + (seller_amount + royalty)
              /\ forall a, a <> owner t ->
                           pending_payments s' !! a = pending_payments s !! a)).
Proof.
  intros Hs.
  pose proof (fun t Ht => lookup_bounds _ _ token_id t Hs Ht) as Hb.
  split; [split|].
  - intros [reason H]. apply run_Failwith in H. unfold buy in H.
    mrun_cases H;
      try match goal with
        | Hg : _ && _ = false |- _ =>
            rewrite Hb in Hg by reflexivity; discriminate
        end;
      bool_to_prop; try discriminate.
    all: try (left; assumption).
    all: try (right; left; first [assumption|reflexivity]).
    all: try (right; right; eexists; split; [reflexivity|]; auto; fail).
  - intros Hc.
    destruct (run (buy token_id) ctx s) as [[s' o]|reason] eqn:H; [exfalso|eauto].
    run_inv H; bool_to_prop;
      destruct Hc as [Hc|[Hc|(t' & [= <-] & [Hc|[Hc|Hc]])]];
      congruence.
  - intros s' o H. run_inv H; bool_to_prop;
      match goal with
      | Ht : tokens s !! _ = Some ?t |- _ =>
          exists t, (split_tokens (price t) (royalty_percent t) 100),
            (split_tokens (price t) (platform_fee_percent s) 100),
            (price t - split_tokens (price t) (royalty_percent t) 100
             - split_tokens (price t) (platform_fee_percent s) 100)
      end;
      (split; [reflexivity|]); (split; [reflexivity|]);
      (split; [reflexivity|]); (split; [lia|]); (split; [reflexivity|]);
      (split; [reflexivity|]); rewrite !get_pending_balance; storage_simpl.
    + (* the author is not the seller *)
      split; [|congruence]. intros _.
      rewrite !balance_credit.
      split; [repeat case_decide; first [lia|congruence]|].
      split; [repeat case_decide; first [lia|congruence]|].
      intros a Ha Ho. rewrite !credit_other by assumption. reflexivity.
    + (* the author is the seller *)
      split; [congruence|]. intros _. split; [reflexivity|].
      rewrite balance_credit, decide_True by reflexivity.
      split; [reflexivity|].
      intros a Ha. rewrite credit_other by assumption. reflexivity.
Qed.

Lemma buy_spec_witness :
  (exists reason,
      run (buy 0) (Scenario.from "bob" 100 2) Scenario.listed
      = Failwith reason) <->
  (paused Scenario.listed = true
   \/ tokens Scenario.listed !! 0 = None
   \/ exists t, tokens Scenario.listed !! 0 = Some t
                /\ (for_sale t = false
                    \/ sp_sender (Scenario.from "bob" 100 2) = owner t
                    \/ sp_amount (Scenario.from "bob" 100 2) <> price t)).
Proof.
  apply (proj1 (buy_spec Scenario.listed (Scenario.from "bob" 100 2) 0
                  scenario_listed_reachable)).
Defined.

(** The purchase of the run of section 8 of the specification: a price of
    100 with 10% royalties and a 5% fee, the author being the seller. *)
Example buy_author_is_seller :
  get_pending Scenario.sold "alice" = 95
  /\ collected_fees Scenario.sold = collected_fees Scenario.listed + 5
  /\ tokens Scenario.sold !! 0 =
     Some {| metadata := "ipfs://Qm1"; author := "alice"; owner := "bob";
             price := 0; for_sale := false; royalty_percent := 10;
             created_at := 0%Z |}.
Proof. vm_compute. auto. Qed.

(** ** C9: accepting an offer below the floor *)

(** C9: [accept_offer] does not compare the offer with [min_sale_price]: on
    a reachable storage, when the contract is not paused, no payment is
    attached, the token and the offer exist, the caller owns the token and
    the offer has not expired, the call succeeds although the amount offered
    is below the current floor, and settles as usual: the bidder becomes the
    owner, the listing is cleared, the offer is removed, and the amount
    offered is split between the fee accumulator and the pending balances of
    the author and of the seller. *)
Theorem accept_offer_below_floor s ctx token_id bidder t token_offers offer :
  reachable s ->
  paused s = false ->
  sp_amount ctx = 0 ->
  tokens s !! token_id = Some t ->
  offers s !! token_id = Some token_offers ->
  token_offers !! bidder = Some offer ->
  owner t = sp_sender ctx ->
  (sp_now ctx < expires_at offer)%Z ->
  amount offer < min_sale_price s ->
  exists s' o royalty fee seller_amount,
    run (accept_offer token_id bidder) ctx s = Ok (s', o)
    /\ royalty = amount offer * royalty_percent t / 100
    /\ fee = amount offer * platform_fee_percent s / 100
    /\ royalty + fee + seller_amount = amount offer
    /\ tokens s' =
       <[token_id := with_price 0 (with_for_sale false
                       (with_owner bidder t))]> (tokens s)
    /\ offers s' = <[token_id := delete bidder token_offers]> (offers s)
    /\ collected_fees s' = collected_fees s + fee
    /\ min_sale_price s' = min_sale_price s
    /\ (author t <> owner t ->
        get_pending s' (author t) = get_pending s (author t) + royalty
        /\ get_pending s' (owner t) = get_pending s (owner t) + seller_amount)
    /\ (author t = owner t ->
        get_pending s' (owner t)
        = get_pending s (owner t) + (seller_amount + royalty)).
Proof.
  intros Hs Hp Ha Ht Ho Hb Hown Hexp _.
  pose proof (offer_bounds _ _ _ _ (amount offer) Hs Ht) as Hg.
  destruct (run (accept_offer token_id bidder) ctx s) as [[s' o]|reason] eqn:H.
  - exists s', o, (split_tokens (amount offer) (royalty_percent t) 100),
      (split_tokens (amount offer) (platform_fee_percent s) 100),
      (amount offer - split_tokens (amount offer) (royalty_percent t) 100
       - split_tokens (amount offer) (platform_fee_percent s) 100).
    split; [reflexivity|]. split; [reflexivity|]. split; [reflexivity|].
    apply andb_true_iff in Hg as [Hg1 Hg2].
    apply N.leb_le in Hg1. apply N.leb_le in Hg2.
    split; [lia|].
    run_inv H; simplify_eq; bool_to_prop;
      (split; [reflexivity|]); (split; [reflexivity|]);
      (split; [reflexivity|]); (split; [reflexivity|]);
      rewrite !get_pending_balance; storage_simpl;
      rewrite !balance_credit;
      (split; [intros ?|intros ?]);
      repeat case_decide; first [congruence | lia | split; lia].
  - exfalso. apply run_Failwith in H. unfold accept_offer in H.
    mrun_cases H; simplify_eq; bool_to_prop;
      first [discriminate | congruence | lia
            | match goal with
              | Hx : is_Some None |- _ => destruct Hx; discriminate
              | Hx : _ && _ = false |- _ =>
                  apply andb_false_iff in Hx as [Hx|Hx];
                  apply N.leb_gt in Hx; lia
              end ].
Qed.

Lemma accept_offer_below_floor_witness :
  exists s' o royalty fee seller_amount,
    run (accept_offer 0 "bob") (Scenario.from "alice" 0 3)
      Scenario.offered_below_floor = Ok (s', o)
    /\ royalty = 50 * 10 / 100
    /\ fee = 50 * 5 / 100
    /\ royalty + fee + seller_amount = 50
    /\ tokens s' =
       <[0 := {| metadata := "ipfs://Qm1"; author := "alice"; owner := "bob";
                 price := 0; for_sale := false; royalty_percent := 10;
                 created_at := 0%Z |}]>
         (tokens Scenario.offered_below_floor)
    /\ offers s' =
       <[0 := delete "bob" {["bob" := {| amount := 50; expires_at := 101%Z |}]}]>
         (offers Scenario.offered_below_floor)
    /\ collected_fees s' = collected_fees Scenario.offered_below_floor + fee
    /\ min_sale_price s' = 200
    /\ ("alice" <> "alice" ->
        get_pending s' "alice"
        = get_pending Scenario.offered_below_floor "alice" + royalty
        /\ get_pending s' "alice"
           = get_pending Scenario.offered_below_floor "alice" + seller_amount)
    /\ ("alice" = "alice" ->
        get_pending s' "alice"
        = get_pending Scenario.offered_below_floor "alice"
          + (seller_amount + royalty)).
Proof.
  apply (accept_offer_below_floor Scenario.offered_below_floor
           (Scenario.from "alice" 0 3) 0 "bob"
           {| metadata := "ipfs://Qm1"; author := "alice"; owner := "alice";
              price := 0; for_sale := false; royalty_percent := 10;
              created_at := 0%Z |}
           {["bob" := {| amount := 50; expires_at := 101%Z |}]}
           {| amount := 50; expires_at := 101%Z |}).
  - exact scenario_offered_below_floor_reachable.
  - reflexivity.
  - reflexivity.
  - vm_compute. reflexivity.
  - vm_compute. reflexivity.
  - vm_compute. reflexivity.
  - reflexivity.
  - reflexivity.
  - vm_compute. reflexivity.
Defined.

(** ** C6: burning a token *)

(** C6, as stated, fails: [burn] also aborts when a payment is attached to
    the call, although the token exists, is not listed and belongs to the
    caller. *)
Lemma burn_with_payment_aborts :
  ~ (forall s ctx token_id,
        reachable s ->
        (exists reason, run (burn token_id) ctx s = Failwith reason) ->
        tokens s !! token_id = None
        \/ exists t, tokens s !! token_id = Some t
                     /\ (for_sale t = true \/ owner t <> sp_sender ctx)).
Proof.
  intros H.
  destruct (H Scenario.minted (Scenario.from "alice" 1 3) 0
              scenario_minted_reachable) as [H1|(t & H1 & [H2|H2])].
  - exists "BURN: No tez expected". vm_compute. reflexivity.
  - vm_compute in H1. discriminate.
  - vm_compute in H1. injection H1 as <-. discriminate.
  - vm_compute in H1. injection H1 as <-. apply H2. reflexivity.
Qed.

(** C6, amended: [burn(id)] aborts exactly when a payment is attached to the
    call, the token is unknown, it is listed, or the caller is not its
    owner; in particular it succeeds while the contract is paused. On
    success the token record is deleted, every address is credited, in its
    pending balance, exactly the amount of its offer on that token (nothing
    without an offer), and the offers of the token are removed. *)
Theorem burn_spec s ctx token_id :
  ((exists reason, run (burn token_id) ctx s = Failwith reason) <->
   (sp_amount ctx <> 0
    \/ tokens s !! token_id = None
    \/ exists t, tokens s !! token_id = Some t
                 /\ (for_sale t = true \/ owner t <> sp_sender ctx)))
  /\ (forall t,
        paused s = true -> sp_amount ctx = 0 ->
        tokens s !! token_id = Some t ->
        for_sale t = false -> owner t = sp_sender ctx ->
        exists s' o, run (burn token_id) ctx s = Ok (s', o))
  /\ (forall s' o,
        run (burn token_id) ctx s = Ok (s', o) ->
        tokens s' = delete token_id (tokens s)
        /\ offers s' = delete token_id (offers s)
        /\ forall a,
            get_pending s' a = get_pending s a + offered_amount s token_id a).
Proof.
  assert ((exists reason, run (burn token_id) ctx s = Failwith reason) <->
          (sp_amount ctx <> 0
           \/ tokens s !! token_id = None
           \/ exists t, tokens s !! token_id = Some t
                        /\ (for_sale t = true \/ owner t <> sp_sender ctx)))
    as Habort.
  { split.
    - intros [reason H]. apply run_Failwith in H. unfold burn in H.
      mrun_cases H; bool_to_prop; try discriminate.
      all: try (left; assumption).
      all: try (right; left; first [assumption|reflexivity]).
      all: try (right; right; eexists; split; [reflexivity|]; auto; fail).
      exfalso.
      match goal with
      | Hx : is_Some ?x, Hy : ?x = None |- _ =>
          rewrite Hy in Hx; destruct Hx; discriminate
      end.
    - intros Hc.
      destruct (run (burn token_id) ctx s) as [[s' o]|reason] eqn:H;
        [exfalso|eauto].
      run_inv H; bool_to_prop;
        destruct Hc as [Hc|[Hc|(t' & [= <-] & [Hc|Hc])]]; congruence. }
  split; [exact Habort|]. split.
  - intros t Hp Ha Ht Hl Ho.
    destruct (run (burn token_id) ctx s) as [[s' o]|reason] eqn:H; [eauto|].
    exfalso. destruct (proj1 Habort) as [Hc|[Hc|(t' & Ht' & [Hc|Hc])]];
      [eauto| | | |]; congruence.
  - intros s' o H. unfold offered_amount.
    run_inv H; bool_to_prop; (split; [reflexivity|]);
      (split; [first [reflexivity|symmetry; apply delete_id; assumption]|]);
      intros a; rewrite !get_pending_balance; storage_simpl.
    + apply balance_refund_all_keys.
    + match goal with Hn : offers s !! _ = None |- _ => rewrite Hn end. lia.
Qed.

Lemma burn_spec_witness :
  exists s' o,
    run (burn 0) (Scenario.from "alice" 0 4)
      Scenario.paused_with_offers
    = Ok (s', o).
Proof.
  apply (proj1 (proj2 (burn_spec
           Scenario.paused_with_offers
           (Scenario.from "alice" 0 4) 0))
           {| metadata := "ipfs://Qm1"; author := "alice"; owner := "alice";
              price := 0; for_sale := false; royalty_percent := 10;
              created_at := 0%Z |});
    vm_compute; reflexivity.
Defined.

(** Burning a token that carries an offer of 50 by bob and one of 60 by
    carol credits 50 to bob and 60 to carol and removes both offers. *)
Example burn_refunds_two_offers :
  let s' := after Scenario.offered_twice (Scenario.from "alice" 0 3) (Burn 0) in
  tokens s' !! 0 = None
  /\ offers s' !! 0 = None
  /\ get_pending Scenario.offered_twice "bob" = 0
  /\ get_pending Scenario.offered_twice "carol" = 0
  /\ get_pending s' "bob" = 50
  /\ get_pending s' "carol" = 60.
Proof. vm_compute. auto 10. Qed.

(** ** C7: replacing an offer *)

(** C7: when the caller already has an offer on the token, a successful
    [make_offer(id, duration)] credits the full amount of that offer to the
    caller's pending balance and records the new offer, whose amount is the
    attached payment and whose expiry is the current time plus [duration];
    the offers of the other bidders on the token, the offers on the other
    tokens and the other pending balances are unchanged. *)
Theorem make_offer_refunds_previous
    s ctx token_id duration_seconds token_offers old_offer s' o :
  offers s !! token_id = Some token_offers ->
  token_offers !! sp_sender ctx = Some old_offer ->
  run (make_offer token_id duration_seconds) ctx s = Ok (s', o) ->
  get_pending s' (sp_sender ctx)
  = get_pending s (sp_sender ctx) + amount old_offer
  /\ (forall a, a <> sp_sender ctx ->
                pending_payments s' !! a = pending_payments s !! a)
  /\ offers s' !! token_id =
     Some (<[sp_sender ctx :=
               {| amount := sp_amount ctx;
                  expires_at := (sp_now ctx + duration_seconds)%Z |}]>
             token_offers)
  /\ (forall bidder, bidder <> sp_sender ctx ->
                     offers s' !! token_id ≫= (.!! bidder)
                     = token_offers !! bidder)
  /\ (forall i, i <> token_id -> offers s' !! i = offers s !! i).
Proof.
  intros Ho Hold H. run_inv H; simplify_eq; bool_to_prop;
    try match goal with
      | Hx : is_Some None |- _ => destruct Hx; discriminate
      | Hx : ?x = None, Hy : ?x = Some _ |- _ => congruence
      end.
  rewrite !get_pending_balance. storage_simpl.
  rewrite balance_credit, decide_True by reflexivity.
  split; [reflexivity|].
  split; [intros a Ha; apply credit_other; assumption|].
  rewrite lookup_insert_eq. split; [reflexivity|]. split.
  - intros bidder Hb. cbn. apply lookup_insert_ne. congruence.
  - intros i Hi. apply lookup_insert_ne. congruence.
Qed.

Lemma make_offer_refunds_previous_witness :
  let ctx := Scenario.from "bob" 70 5 in
  let s' := after Scenario.offered_twice ctx (Make_offer 0 30) in
  let token_offers : gmap address offer_type :=
    <["carol" := {| amount := 60; expires_at := 102%Z |}]>
      {["bob" := {| amount := 50; expires_at := 101%Z |}]} in
  get_pending s' "bob" = get_pending Scenario.offered_twice "bob" + 50
  /\ (forall a, a <> "bob" ->
                pending_payments s' !! a
                = pending_payments Scenario.offered_twice !! a)
  /\ offers s' !! 0 =
     Some (<["bob" := {| amount := 70; expires_at := 35%Z |}]> token_offers)
  /\ (forall bidder, bidder <> "bob" ->
                     offers s' !! 0 ≫= (.!! bidder) = token_offers !! bidder)
  /\ (forall i, i <> 0 -> offers s' !! i = offers Scenario.offered_twice !! i).
Proof.
  intros ctx s' token_offers.
  apply (make_offer_refunds_previous Scenario.offered_twice ctx 0 30
           token_offers {| amount := 50; expires_at := 101%Z |} s'
           (issued_by Scenario.offered_twice ctx (Make_offer 0 30))).
  - vm_compute. reflexivity.
  - vm_compute. reflexivity.
  - vm_compute. reflexivity.
Defined.

(** ** C8: the handover of the administration *)




(** The handover of section 8 of the specification: after the proposal of
    bob, [accept_admin] by bob succeeds, bob is the administrator, and the
    former administrator can no longer pause the contract. *)
Example handover_to_bob :
  let s' := after Scenario.proposed (Scenario.from "bob" 0 2) Accept_admin in
  admin s' = "bob"
  /\ pending_admin s' = None
  /\ run (set_pause true) (Scenario.from "admin" 0 3) s'
     = Failwith "PAUSE: Not admin".
Proof. vm_compute. auto. Qed.

(** * Further properties of the contract *)

(** ** Further invariants of the reachable storages *)

Lemma ids_issued_step s ctx c s' :
  ids_issued s -> step s ctx c s' -> ids_issued s'.
Proof.
  unfold ids_issued. intros [Hid Hcap] [o H].
  destruct c; run_inv H; bool_to_prop; (split; [|first [exact Hcap|lia]]);
    try exact Hid;
    intros i [t' Hi];
    first
      [ apply lookup_insert_Some in Hi as [[<- _]|[_ Hi]];
        [first [lia | apply Hid; assumption]
        |first [apply Hid; eauto | specialize (Hid i ltac:(eauto)); lia]]
      | apply lookup_delete_Some in Hi as [_ Hi]; apply Hid; eauto ].
Qed.

Lemma reachable_via_ids_issued allowed s :
  reachable_via allowed s -> ids_issued s.
Proof.
  induction 1 as [? ? ? ? ? ? s Hi|s ctx c s' _ IH _ Hstep].
  - apply init_Ok in Hi as (_ & _ & ->). split; cbn.
    + intros i [t Hi]. rewrite lookup_empty in Hi. discriminate.
    + lia.
  - eapply ids_issued_step; eassumption.
Qed.

Lemma unlisted_at_zero_step s ctx c s' :
  unlisted_at_zero s -> step s ctx c s' -> unlisted_at_zero s'.
Proof.
  unfold unlisted_at_zero. intros Hs [o H].
  destruct c; run_inv H; bool_to_prop; try exact Hs;
    intros i t' Hi;
    first
      [ apply lookup_insert_Some in Hi as [[_ <-]|[_ Hi]];
        [storage_simpl; first [reflexivity | discriminate | congruence
                              | eapply Hs; eassumption]
        |exact (Hs i t' Hi)]
      | apply lookup_delete_Some in Hi as [_ Hi]; exact (Hs i t' Hi) ].
Qed.

Lemma proposal_is_new_step s ctx c s' :
  proposal_is_new s -> step s ctx c s' -> proposal_is_new s'.
Proof.
  unfold proposal_is_new. intros Hs [o H].
  destruct c; run_inv H; bool_to_prop; try exact Hs;
    first [discriminate | congruence].
Qed.

Lemma offers_on_tokens_step s ctx c s' :
  offers_on_tokens s -> step s ctx c s' -> offers_on_tokens s'.
Proof.
  unfold offers_on_tokens. intros Hs [o H].
  destruct c; run_inv H; bool_to_prop; try exact Hs;
    intros i Hi;
    repeat match goal with
      | Hx : is_Some (<[_ := _]> _ !! _) |- _ =>
          apply lookup_insert_is_Some in Hx as [<-|[? Hx]]
      | Hx : is_Some (delete _ _ !! _) |- _ =>
          apply lookup_delete_is_Some in Hx as [? Hx]
      end;
    repeat match goal with
      | |- is_Some (<[?k := _]> _ !! ?j) =>
          apply lookup_insert_is_Some;
          destruct (decide (k = j)); [left; assumption|right; split; [assumption|]]
      | |- is_Some (delete ?k _ !! ?j) =>
          apply lookup_delete_is_Some; split;
          [first [congruence
                 |intros ->;
                  match goal with
                  | Hn : ?x = None, Hx : is_Some ?x |- _ =>
                      rewrite Hn in Hx; destruct Hx; discriminate
                  end]|]
      end;
    eauto.
Qed.

(** X1: in every reachable storage the id of every token is below the counter
    [next_id], and when [max_supply] is not 0 the counter does not exceed it:
    at most [max_supply] tokens are ever minted. *)
Theorem token_ids_below_counter s :
  reachable s ->
  (forall token_id, is_Some (tokens s !! token_id) -> token_id < next_id s)
  /\ (0 < max_supply s -> next_id s <= max_supply s).
Proof. intros Hs. exact (reachable_via_ids_issued _ _ Hs). Qed.

Lemma reachable_via_unlisted_at_zero allowed s :
  reachable_via allowed s -> unlisted_at_zero s.
Proof.
  induction 1 as [? ? ? ? ? ? s Hi|s ctx c s' _ IH _ Hstep].
  - apply init_Ok in Hi as (_ & _ & ->). intros i t Hi.
    cbn in Hi. rewrite lookup_empty in Hi. discriminate.
  - eapply unlisted_at_zero_step; eassumption.
Qed.

(** X2: in every reachable storage a token that is not listed has price 0. *)
Theorem unlisted_token_price_zero s token_id t :
  reachable s ->
  tokens s !! token_id = Some t -> for_sale t = false -> price t = 0.
Proof.
  intros Hs Ht Hl.
  exact (reachable_via_unlisted_at_zero _ _ Hs token_id t Ht Hl).
Qed.

(** X3: in every reachable storage the platform fee is at most 20% and the
    royalty of every token at most 50%. *)
Theorem percentages_bounded s :
  reachable s ->
  platform_fee_percent s <= 20
  /\ forall token_id t,
       tokens s !! token_id = Some t -> royalty_percent t <= 50.
Proof. intros Hs. exact (reachable_via_bounds _ _ Hs). Qed.

(** X4: in every reachable storage the proposed administrator, if any, is not
    the administrator. *)
Theorem pending_admin_is_not_admin s :
  reachable s -> pending_admin s <> Some (admin s).
Proof.
  induction 1 as [? ? ? ? ? ? s Hi|s ctx c s' _ IH _ Hstep].
  - apply init_Ok in Hi as (_ & _ & ->). cbn. discriminate.
  - eapply proposal_is_new_step; eassumption.
Qed.

(** X5: in every reachable storage offers are held only for tokens that
    exist: no amount is left with the offers of a burned token. *)
Theorem offers_only_on_existing_tokens s token_id :
  reachable s ->
  is_Some (offers s !! token_id) -> is_Some (tokens s !! token_id).
Proof.
  intros Hs. revert token_id. change (offers_on_tokens s).
  induction Hs as [? ? ? ? ? ? s Hi|s ctx c s' _ IH _ Hstep].
  - apply init_Ok in Hi as (_ & _ & ->). intros i [m Hi].
    cbn in Hi. rewrite lookup_empty in Hi. discriminate.
  - eapply offers_on_tokens_step; eassumption.
Qed.

(** X6: a successful call never lowers the counter, and an id below the
    counter that holds no token (the id of a burned token) holds none after
    the call: ids are not reused. *)
Theorem burned_ids_are_not_reissued s ctx c s' token_id :
  step s ctx c s' ->
  next_id s <= next_id s'
  /\ (token_id < next_id s -> tokens s !! token_id = None ->
      tokens s' !! token_id = None).
Proof.
  intros [o H].
  destruct c; run_inv H; bool_to_prop; (split; [lia|]); intros Hlt Hn;
    try assumption;
    first
      [ rewrite lookup_insert_ne; [assumption|]; intros <-;
        first [lia | congruence]
      | apply lookup_delete_None; right; assumption ].
Qed.

(** ** What a call can change *)

(** X7: from a reachable storage, a successful call leaves the metadata, the
    author, the royalty and the creation time of every token it keeps as
    they were. *)
Theorem creation_data_immutable s ctx c s' token_id t t' :
  reachable s -> step s ctx c s' ->
  tokens s !! token_id = Some t -> tokens s' !! token_id = Some t' ->
  metadata t' = metadata t /\ author t' = author t
  /\ royalty_percent t' = royalty_percent t /\ created_at t' = created_at t.
Proof.
  intros Hs [o H]. apply reachable_via_ids_issued in Hs as [Hid _].
  specialize (Hid token_id).
  destruct c; run_inv H; bool_to_prop; intros Ht Ht';
    try (assert (t' = t) as -> by congruence; auto; fail);
    first
      [ apply lookup_insert_Some in Ht' as [[<- <-]|[_ Ht']];
        [first [specialize (Hid ltac:(eauto)); lia
               |assert (t0 = t) as -> by congruence; storage_simpl; auto
               |idtac]
        |assert (t' = t) as -> by congruence; auto]
      | apply lookup_delete_Some in Ht' as [_ Ht'];
        assert (t' = t) as -> by congruence; auto ].
Qed.

(** X8: from a reachable storage, a successful call changes or removes the
    record of a token only if it is made by the owner of the token, or is a
    purchase of the listed token at its listed price while the contract is
    not paused. *)
Theorem token_changes_are_authorized s ctx c s' token_id t :
  reachable s -> step s ctx c s' ->
  tokens s !! token_id = Some t -> tokens s' !! token_id <> Some t ->
  sp_sender ctx = owner t
  \/ (c = Buy token_id /\ paused s = false /\ for_sale t = true
      /\ sp_amount ctx = price t).
Proof.
  intros Hs [o H]. apply reachable_via_ids_issued in Hs as [Hid _].
  specialize (Hid token_id).
  destruct c; run_inv H; bool_to_prop; intros Ht Ht';
    try contradiction;
    match goal with
    | Hn : <[?k := _]> _ !! _ <> _ |- _ =>
        destruct (decide (k = token_id)) as [He|Hne];
        [|rewrite lookup_insert_ne in Hn by assumption; contradiction]
    | Hn : delete ?k _ !! _ <> _ |- _ =>
        destruct (decide (k = token_id)) as [He|Hne];
        [|rewrite lookup_delete_ne in Hn by assumption; contradiction]
    end;
    try (specialize (Hid ltac:(eauto)); lia);
    assert (t0 = t) as -> by congruence;
    first [left; congruence | right; subst; auto].
Qed.

(** X9: from a reachable storage, the owner of a token changes only by a
    purchase of the listed token by the new owner at the listed price, by the
    owner accepting an unexpired offer of the new owner, or by the owner
    transferring the unlisted token to the new owner. *)
Theorem ownership_moves s ctx c s' token_id t t' :
  reachable s -> step s ctx c s' ->
  tokens s !! token_id = Some t -> tokens s' !! token_id = Some t' ->
  owner t' <> owner t ->
  (c = Buy token_id /\ owner t' = sp_sender ctx /\ for_sale t = true
   /\ sp_amount ctx = price t)
  \/ (c = Accept_offer token_id (owner t') /\ sp_sender ctx = owner t
      /\ exists token_offers offer,
           offers s !! token_id = Some token_offers
           /\ token_offers !! owner t' = Some offer
           /\ (sp_now ctx < expires_at offer)%Z)
  \/ (c = Transfer token_id (owner t') /\ sp_sender ctx = owner t
      /\ for_sale t = false).
Proof.
  intros Hs [o H]. apply reachable_via_ids_issued in Hs as [Hid _].
  specialize (Hid token_id).
  destruct c; run_inv H; bool_to_prop; intros Ht Ht' Hown;
    try (assert (t' = t) as -> by congruence; contradiction);
    first
      [ apply lookup_insert_Some in Ht' as [[<- <-]|[_ Ht']];
        [|assert (t' = t) as -> by congruence; contradiction]
      | apply lookup_delete_Some in Ht' as [_ Ht'];
        assert (t' = t) as -> by congruence; contradiction ];
    try (specialize (Hid ltac:(eauto)); lia);
    assert (t0 = t) as -> by congruence; storage_simpl;
    try contradiction.
  all: first
         [ left; auto; fail
         | right; left; split; [reflexivity|]; split; [congruence|]; eauto
         | right; right; auto ].
Qed.

(** X10: no call changes [max_supply] or [max_metadata_length], and a
    successful call that changes the fee, the mint price, the price floor or
    the pause flag is made by the administrator, without payment. *)
Theorem configuration_changes_by_admin s ctx c s' :
  step s ctx c s' ->
  max_supply s' = max_supply s
  /\ max_metadata_length s' = max_metadata_length s
  /\ ((platform_fee_percent s' <> platform_fee_percent s
       \/ mint_price s' <> mint_price s
       \/ min_sale_price s' <> min_sale_price s
       \/ paused s' <> paused s) ->
      sp_sender ctx = admin s /\ sp_amount ctx = 0).
Proof.
  intros [o H].
  destruct c; run_inv H; bool_to_prop;
    (split; [reflexivity|]); (split; [reflexivity|]);
    first [intros [?|[?|[?|?]]]; contradiction | auto].
Qed.

Lemma balance_delete (p : gmap address mutez) k a :
  balance (delete k p) a = if decide (k = a) then 0 else balance p a.
Proof.
  unfold balance. rewrite lookup_delete. destruct (decide (k = a)); reflexivity.
Qed.

(** X11: the pending balance of an address decreases only by a [withdraw] of
    that address, which empties it. *)
Theorem pending_balance_reduced_only_by_own_withdraw s ctx c s' a :
  step s ctx c s' ->
  get_pending s' a < get_pending s a ->
  c = Withdraw /\ sp_sender ctx = a /\ get_pending s' a = 0.
Proof.
  intros [o H]. rewrite !get_pending_balance.
  destruct c; run_inv H; bool_to_prop;
    rewrite ?balance_refund_all_keys, ?balance_credit, ?balance_delete;
    repeat case_decide; intros Hlt; try lia; auto.
Qed.

(** X12: the collected fees decrease only by a [withdraw_fees] of the
    administrator, which empties them. *)
Theorem fees_reduced_only_by_admin_withdrawal s ctx c s' :
  step s ctx c s' ->
  collected_fees s' < collected_fees s ->
  c = Withdraw_fees /\ sp_sender ctx = admin s /\ collected_fees s' = 0.
Proof.
  intros [o H].
  destruct c; run_inv H; bool_to_prop; intros Hlt; try lia; auto.
Qed.

(** ** The pause *)

Ltac absurd_checks :=
  storage_simpl; bool_to_prop;
  first
    [ discriminate
    | congruence
    | lia
    | progress simplify_eq; first [lia | congruence]
    | match goal with
      | Hn : ?x = None, Hx : is_Some ?x |- _ =>
          rewrite Hn in Hx; destruct Hx; discriminate
      | Hn : ?x = None, Hx : ?x = Some _ |- _ =>
          rewrite Hn in Hx; discriminate
      end ].

(** X13: while the contract is paused, [mint], [list_for_sale],
    [update_price], [buy], [make_offer], [accept_offer] and [transfer]
    abort. *)
Theorem paused_blocks_gated_calls s ctx c :
  paused s = true -> pause_gated c = true ->
  exists reason, run (dispatch c) ctx s = Failwith reason.
Proof.
  intros Hp Hc.
  destruct (run (dispatch c) ctx s) as [[s' o]|reason] eqn:H; [|eauto].
  exfalso. destruct c; try discriminate Hc; run_inv H; bool_to_prop;
    congruence.
Qed.

(** X14: whether any other call ([cancel_sale], [cancel_offer], [burn], the
    withdrawals and the administration) succeeds does not depend on the
    pause flag. *)
Theorem pause_does_not_affect_other_calls s ctx c b :
  pause_gated c = false ->
  commits (set_paused b s) ctx c = commits s ctx c.
Proof.
  intros Hc. unfold commits.
  destruct (run (dispatch c) ctx s) as [[s1 o1]|r1] eqn:H1;
    destruct (run (dispatch c) ctx (set_paused b s)) as [[s2 o2]|r2] eqn:H2;
    try reflexivity; exfalso.
  - apply run_Failwith in H2.
    destruct c; try discriminate Hc; run_inv H1; unfold_entry H2;
      mrun_cases H2; absurd_checks.
  - apply run_Failwith in H1.
    destruct c; try discriminate Hc; run_inv H2; unfold_entry H1;
      mrun_cases H1; absurd_checks.
Qed.

(** ** Conservation of value *)

Section total_with.
Context {K A : Type} `{Countable K} (w : A -> N).
Implicit Types m : gmap K A.

Lemma total_with_empty : total_with w (∅ : gmap K A) = 0.
Proof. apply map_fold_empty. Qed.

Lemma total_with_insert_None m i x :
  m !! i = None -> total_with w (<[i := x]> m) = w x + total_with w m.
Proof.
  intros Hi. unfold total_with.
  apply (map_fold_insert_L (fun _ x acc => w x + acc)); [|exact Hi].
  intros. lia.
Qed.

Lemma total_with_delete m i x :
  m !! i = Some x -> total_with w m = w x + total_with w (delete i m).
Proof.
  intros Hi. unfold total_with.
  apply (map_fold_delete_L (fun _ x acc => w x + acc)); [|exact Hi].
  intros. lia.
Qed.

Lemma total_with_insert_Some m i x y :
  m !! i = Some y ->
  total_with w (<[i := x]> m) + w y = w x + total_with w m.
Proof.
  intros Hi. rewrite <- insert_delete_eq.
  rewrite total_with_insert_None by apply lookup_delete_eq.
  rewrite (total_with_delete m i y Hi). lia.
Qed.

Lemma total_with_insert_empty i x :
  total_with w (<[i := x]> (∅ : gmap K A)) = w x.
Proof.
  rewrite total_with_insert_None by apply lookup_empty.
  rewrite total_with_empty. lia.
Qed.
End total_with.

Lemma total_credit recipient amount (p : gmap address mutez) :
  total_with id (credit recipient amount p) = total_with id p + amount.
Proof.
  unfold credit. destruct (0 <? amount) eqn:Ha.
  - destruct (p !! recipient) as [v|] eqn:Hv; cbn [default].
    + pose proof (total_with_insert_Some id p recipient (v + amount) v Hv).
      unfold id in *. lia.
    + rewrite total_with_insert_None by exact Hv. unfold id. lia.
  - apply N.ltb_ge in Ha. lia.
Qed.

Lemma total_refund_all token_offers l (p : gmap address mutez) :
  total_with id (refund_all token_offers l p) =
  total_with id p
  + foldr (fun b acc => default 0 (amount <$> token_offers !! b) + acc) 0 l.
Proof.
  revert p. induction l as [|b l IH]; intros p.
  - cbn. lia.
  - rewrite refund_all_cons, IH, total_credit. cbn [foldr]. lia.
Qed.

Lemma total_refund_all_keys (token_offers : gmap address offer_type)
    (p : gmap address mutez) :
  total_with id (refund_all token_offers (keys token_offers) p) =
  total_with id p + total_with amount token_offers.
Proof.
  rewrite total_refund_all. f_equal.
  unfold total_with, keys. rewrite map_fold_foldr.
  assert (Forall (fun kv => token_offers !! kv.1 = Some kv.2)
            (map_to_list token_offers)) as Hall.
  { apply Forall_forall. intros [k v] Hkv.
    apply elem_of_map_to_list in Hkv. exact Hkv. }
  induction Hall as [|[k v] l Hkv _ IH]; [reflexivity|].
  cbn in *. rewrite Hkv, IH. reflexivity.
Qed.

Ltac total_of_insert w m k y :=
  match goal with
  | Hk : m !! k = Some ?x |- _ =>
      lazymatch goal with
      | _ : total_with w (<[k := y]> m) + w x = w y + total_with w m |- _ =>
          fail
      | _ => pose proof (total_with_insert_Some w m k y x Hk)
      end
  | Hk : m !! k = None |- _ =>
      lazymatch goal with
      | _ : total_with w (<[k := y]> m) = w y + total_with w m |- _ => fail
      | _ => pose proof (total_with_insert_None w m k y Hk)
      end
  end.

Ltac total_of_delete w m k :=
  match goal with
  | Hk : m !! k = Some ?x |- _ =>
      lazymatch goal with
      | _ : total_with w m = w x + total_with w (delete k m) |- _ => fail
      | _ => pose proof (total_with_delete w m k x Hk)
      end
  end.

Ltac totals :=
  unfold liabilities, held_in_offers, sent; storage_simpl; cbn [foldr op];
  rewrite ?total_refund_all_keys, ?total_credit;
  repeat match goal with
    | |- context [total_with ?w (<[?k := ?y]> ?m)] => total_of_insert w m k y
    | _ : context [total_with ?w (<[?k := ?y]> ?m)] |- _ =>
        total_of_insert w m k y
    | |- context [total_with ?w (delete ?k ?m)] => total_of_delete w m k
    | _ : context [total_with ?w (delete ?k ?m)] |- _ => total_of_delete w m k
    end;
  rewrite ?total_with_insert_empty in *;
  cbn [id amount] in *.

Lemma liabilities_after_call s ctx c s' o :
  run (dispatch c) ctx s = Ok (s', o) ->
  liabilities s' + sent o = liabilities s + sp_amount ctx.
Proof.
  intros H. destruct c; run_inv H; bool_to_prop; totals; lia.
Qed.

(** X15: every successful call changes what the contract owes (pending
    payments, collected fees and amounts held for offers) by exactly the
    amount attached to the call, less what the call sends out. *)
Theorem value_conserved s ctx c s' o :
  run (dispatch c) ctx s = Ok (s', o) ->
  liabilities s' + sent o = liabilities s + sp_amount ctx.
Proof. apply liabilities_after_call. Qed.

(** X16: at every point of a run from origination, what the contract owes
    plus what it has sent out equals what the calls have attached. *)
Theorem liabilities_are_funded s received paid :
  funded s received paid -> liabilities s + paid = received.
Proof.
  induction 1 as [? ? ? ? ? ? s Hi|s received paid ctx c s' o _ IH Hrun].
  - apply init_Ok in Hi as (_ & _ & ->).
    unfold liabilities, held_in_offers. storage_simpl.
    rewrite !total_with_empty. reflexivity.
  - pose proof (liabilities_after_call _ _ _ _ _ Hrun). lia.
Qed.

(** ** Listing and delisting *)

Lemma set_tokens_back s v : set_tokens (tokens s) (set_tokens v s) = s.
Proof. destruct s; reflexivity. Qed.

(** X17: from a reachable storage, listing a token and then cancelling the
    sale, by the same caller and without payment, succeeds and gives back
    the storage as it was before the listing. *)
Theorem list_then_cancel_restores s ctx token_id price s1 o1 ctx' :
  reachable s ->
  run (list_for_sale token_id price) ctx s = Ok (s1, o1) ->
  sp_sender ctx' = sp_sender ctx -> sp_amount ctx' = 0 ->
  exists o2, run (cancel_sale token_id) ctx' s1 = Ok (s, o2).
Proof.
  intros Hs H Hsender Hamount.
  pose proof (reachable_via_unlisted_at_zero _ _ Hs token_id) as Hzero.
  run_inv H. bool_to_prop.
  specialize (Hzero _ eq_refl ltac:(assumption)).
  match goal with
  | |- exists o2, run _ _ ?s1 = _ =>
      destruct (run (cancel_sale token_id) ctx' s1) as [[s2 o2]|r] eqn:H2
  end.
  - exists o2. f_equal. f_equal. run_inv H2.
    rewrite lookup_insert_eq in *. simplify_eq. storage_simpl.
    rewrite insert_insert_eq.
    match goal with
    | |- set_tokens (<[_ := ?t']> _) _ = _ =>
        replace t' with t
          by (destruct t; unfold with_price, with_for_sale; cbn in *; congruence)
    end.
    rewrite insert_id by assumption. apply set_tokens_back.
  - exfalso. apply run_Failwith in H2. unfold cancel_sale in H2.
    mrun_cases H2; bool_to_prop; rewrite ?lookup_insert_eq in *;
      simplify_eq; try absurd_checks.
Qed.

(** ** Offers *)

(** X18: [cancel_offer(id)] aborts exactly when a payment is attached or the
    caller has no offer on the token; neither the pause, nor the expiry of
    the offer, nor the existence of the token is checked. On success the
    caller's offer is removed and its amount credited to the caller's
    pending balance; nothing else changes in the ledger, the tokens or the
    fees. *)
Theorem cancel_offer_spec s ctx token_id :
  ((exists reason, run (cancel_offer token_id) ctx s = Failwith reason) <->
   (sp_amount ctx <> 0
    \/ offers s !! token_id = None
    \/ exists token_offers,
         offers s !! token_id = Some token_offers
         /\ token_offers !! sp_sender ctx = None))
  /\ (forall s' o,
        run (cancel_offer token_id) ctx s = Ok (s', o) ->
        exists token_offers offer,
          offers s !! token_id = Some token_offers
          /\ token_offers !! sp_sender ctx = Some offer
          /\ offers s' =
             <[token_id := delete (sp_sender ctx) token_offers]> (offers s)
          /\ get_pending s' (sp_sender ctx)
             = get_pending s (sp_sender ctx) + amount offer
          /\ (forall a, a <> sp_sender ctx ->
                        pending_payments s' !! a = pending_payments s !! a)
          /\ tokens s' = tokens s
          /\ collected_fees s' = collected_fees s).
Proof.
  split; [split|].
  - intros [reason H]. apply run_Failwith in H. unfold cancel_offer in H.
    mrun_cases H; bool_to_prop; try discriminate.
    all: try (left; assumption).
    all: try (right; left; first [assumption|reflexivity]).
    all: try (right; right; eexists; split; [reflexivity|];
              first [assumption|reflexivity]).
    all: exfalso; absurd_checks.
  - intros Hc.
    destruct (run (cancel_offer token_id) ctx s) as [[s' o]|reason] eqn:H;
      [exfalso|eauto].
    run_inv H; bool_to_prop;
      destruct Hc as [Hc|[Hc|(m & Hm & Hc)]]; simplify_eq; absurd_checks.
  - intros s' o H. run_inv H. bool_to_prop. eexists _, _.
    split; [reflexivity|]. split; [eassumption|]. split; [reflexivity|].
    rewrite !get_pending_balance. storage_simpl.
    rewrite balance_credit, decide_True by reflexivity.
    split; [reflexivity|].
    split; [intros a Ha; apply credit_other; assumption|].
    split; reflexivity.
Qed.

Ltac same_key_lookups :=
  repeat (progress (rewrite ?lookup_insert_eq, ?lookup_delete_eq in *;
                    simplify_eq)).

(** X19: after a successful [make_offer], a [cancel_offer] on the same token
    by the same caller, without payment, succeeds: the caller's pending
    balance has grown by the amount just offered plus the amount of the
    offer it replaced, and the caller has no offer left on the token. *)
Theorem make_offer_then_cancel_refunds
    s ctx token_id duration_seconds s1 o1 ctx' :
  run (make_offer token_id duration_seconds) ctx s = Ok (s1, o1) ->
  sp_sender ctx' = sp_sender ctx -> sp_amount ctx' = 0 ->
  exists s2 o2,
    run (cancel_offer token_id) ctx' s1 = Ok (s2, o2)
    /\ get_pending s2 (sp_sender ctx)
       = get_pending s (sp_sender ctx)
         + offered_amount s token_id (sp_sender ctx) + sp_amount ctx
    /\ offers s2 !! token_id ≫= (.!! sp_sender ctx) = None
    /\ tokens s2 = tokens s
    /\ collected_fees s2 = collected_fees s.
Proof.
  intros H Hsender Hamount. unfold offered_amount.
  run_inv H; bool_to_prop;
    match goal with
    | |- exists s2 o2, run _ _ ?s1 = _ /\ _ =>
        destruct (run (cancel_offer token_id) ctx' s1) as [[s2 o2]|r] eqn:H2
    end;
    try (exfalso; apply run_Failwith in H2; unfold cancel_offer in H2;
         mrun_cases H2; bool_to_prop; rewrite ?Hsender in *;
         same_key_lookups; try absurd_checks; fail);
    eexists _, _; (split; [reflexivity|]);
    run_inv H2; rewrite ?Hsender in *; same_key_lookups;
    rewrite !get_pending_balance; storage_simpl;
    rewrite ?lookup_insert_eq; cbn [mbind option_bind];
    rewrite ?lookup_delete_eq, ?balance_credit;
    repeat case_decide; try congruence;
    repeat match goal with
      | Hn : ?x = None |- context [?x] => rewrite Hn
      | Hn : ?x = Some _ |- context [?x] => rewrite Hn
      end;
    cbn [fmap option_fmap option_map default amount]; unfold id;
    (split; [lia|]); auto.
Qed.

(** ** Withdrawal of the fees *)

(** X20: [withdraw_fees] aborts exactly when a payment is attached, the
    caller is not the administrator, or no fee is collected. On success the
    fees are set to 0, the only change of the storage, before the transfer
    of their amount to the administrator is issued, and another
    [withdraw_fees] aborts. *)
Theorem withdraw_fees_spec ctx s :
  ((exists reason, run withdraw_fees ctx s = Failwith reason) <->
   (sp_amount ctx <> 0 \/ sp_sender ctx <> admin s \/ collected_fees s = 0))
  /\ (forall s' o,
        run withdraw_fees ctx s = Ok (s', o) ->
        s' = set_collected_fees 0 s
        /\ op <$> o = [Send (admin s) (collected_fees s);
                       Emit (FeesWithdrawn (admin s) (collected_fees s))]
        /\ Forall (fun i => collected_fees (at_issue i) = 0) o
        /\ (forall ctx',
               exists reason, run withdraw_fees ctx' s' = Failwith reason)).
Proof.
  split; [split|].
  - intros [reason H]. apply run_Failwith in H. unfold withdraw_fees in H.
    mrun_cases H; bool_to_prop; try discriminate; auto.
    right; right. lia.
  - intros Hc.
    destruct (run withdraw_fees ctx s) as [[s' o]|reason] eqn:H;
      [exfalso|eauto].
    run_inv H. bool_to_prop. destruct Hc as [Hc|[Hc|Hc]]; first [congruence|lia].
  - intros s' o H. run_inv H. bool_to_prop.
    split; [reflexivity|]. split; [reflexivity|]. split.
    + repeat constructor.
    + intros ctx'.
      destruct (run withdraw_fees ctx' _) as [[s'' o']|reason] eqn:H';
        [|eauto].
      exfalso. run_inv H'. bool_to_prop. lia.
Qed.

(** ** Minting *)

(** X21: [mint] aborts exactly when the contract is paused, the payment is
    not the mint price, the metadata is empty or longer than the maximum,
    the royalty is above 50, or the supply cap is not 0 and reached. On
    success the new token is recorded at the counter with the caller as
    author and owner, not listed, at price 0; the counter grows by 1 and the
    payment is added to the collected fees. *)
Theorem mint_spec s ctx metadata royalty_percent :
  ((exists reason,
       run (mint metadata royalty_percent) ctx s = Failwith reason) <->
   (paused s = true
    \/ sp_amount ctx <> mint_price s
    \/ len metadata = 0
    \/ max_metadata_length s < len metadata
    \/ 50 < royalty_percent
    \/ (0 < max_supply s /\ max_supply s <= next_id s)))
  /\ (forall s' o,
        run (mint metadata royalty_percent) ctx s = Ok (s', o) ->
        tokens s' =
          <[next_id s := {| metadata := metadata;
                            author := sp_sender ctx;
                            owner := sp_sender ctx;
                            price := 0;
                            for_sale := false;
                            royalty_percent := royalty_percent;
                            created_at := sp_now ctx |}]> (tokens s)
        /\ next_id s' = next_id s + 1
        /\ collected_fees s' = collected_fees s + mint_price s
        /\ offers s' = offers s
        /\ pending_payments s' = pending_payments s
        /\ op <$> o = [Emit (Mint_event (next_id s) (sp_sender ctx) metadata
                               royalty_percent)]).
Proof.
  split; [split|].
  - intros [reason H]. apply run_Failwith in H. unfold mint in H.
    mrun_cases H; bool_to_prop; try discriminate.
    all: first
           [ left; assumption
           | right; left; assumption
           | right; right; left; lia
           | right; right; right; left; assumption
           | right; right; right; right; left; assumption
           | right; right; right; right; right; split; assumption ].
  - intros Hc.
    destruct (run (mint metadata royalty_percent) ctx s)
      as [[s' o]|reason] eqn:H; [exfalso|eauto].
    run_inv H; bool_to_prop;
      destruct Hc as [Hc|[Hc|[Hc|[Hc|[Hc|[Hc1 Hc2]]]]]];
      first [congruence | lia].
  - intros s' o H. run_inv H; bool_to_prop;
      repeat split; first [reflexivity | congruence].
Qed.

(** X22: on a reachable storage the id given to a new token is not in use: no
    token is overwritten, and the counter stays within the supply cap. *)
Theorem mint_uses_fresh_id s ctx metadata royalty_percent s' o :
  reachable s ->
  run (mint metadata royalty_percent) ctx s = Ok (s', o) ->
  tokens s !! next_id s = None
  /\ (forall token_id, token_id <> next_id s ->
                       tokens s' !! token_id = tokens s !! token_id)
  /\ (0 < max_supply s -> next_id s' <= max_supply s).
Proof.
  intros Hs H. apply reachable_via_ids_issued in Hs as [Hid Hcap].
  assert (tokens s !! next_id s = None) as Hfresh.
  { apply eq_None_not_Some. intros Hsome. apply Hid in Hsome. lia. }
  split; [exact Hfresh|].
  run_inv H; bool_to_prop;
    (split; [intros i Hi; apply lookup_insert_ne; congruence|]); lia.
Qed.

(** ** Transfer *)

(** X23: [transfer(id, to)] aborts exactly when the contract is paused, a
    payment is attached, the token is unknown, [to] is the burn address or
    the caller, the caller is not the owner, or the token is listed. On
    success only the owner of the token changes: offers, ledger and fees are
    as before. *)
Theorem transfer_spec s ctx token_id to_ :
  ((exists reason, run (transfer token_id to_) ctx s = Failwith reason) <->
   (paused s = true
    \/ sp_amount ctx <> 0
    \/ tokens s !! token_id = None
    \/ to_ = burn_address
    \/ to_ = sp_sender ctx
    \/ exists t, tokens s !! token_id = Some t
                 /\ (owner t <> sp_sender ctx \/ for_sale t = true)))
  /\ (forall s' o,
        run (transfer token_id to_) ctx s = Ok (s', o) ->
        exists t,
          tokens s !! token_id = Some t
          /\ s' = set_tokens (<[token_id := with_owner to_ t]> (tokens s)) s
          /\ op <$> o = [Emit (Transfer_event token_id (owner t) to_)]).
Proof.
  split; [split|].
  - intros [reason H]. apply run_Failwith in H. unfold transfer in H.
    mrun_cases H; bool_to_prop; try discriminate.
    all: try (exfalso; absurd_checks; fail).
    all: first
           [ left; assumption
           | right; left; assumption
           | right; right; left; first [assumption|reflexivity]
           | right; right; right; left; assumption
           | right; right; right; right; left; assumption
           | right; right; right; right; right;
             eexists; split; [reflexivity|]; auto ].
  - intros Hc.
    destruct (run (transfer token_id to_) ctx s) as [[s' o]|reason] eqn:H;
      [exfalso|eauto].
    run_inv H; bool_to_prop;
      destruct Hc as [Hc|[Hc|[Hc|[Hc|[Hc|(t' & Ht' & [Hc|Hc])]]]]];
      simplify_eq; first [congruence | lia].
  - intros s' o H. run_inv H. bool_to_prop. eexists.
    split; [reflexivity|]. split; reflexivity.
Qed.

(** ** Acceptance of an offer *)

(** X24: on a reachable storage [accept_offer(id, bidder)] aborts exactly
    when the contract is paused, a payment is attached, the token is
    unknown, the token has no offers, the caller is not the owner, the
    bidder has no offer, or the offer has expired (its expiry is not after
    the current time). *)
Theorem accept_offer_aborts_iff s ctx token_id bidder :
  reachable s ->
  ((exists reason,
       run (accept_offer token_id bidder) ctx s = Failwith reason) <->
   (paused s = true
    \/ sp_amount ctx <> 0
    \/ tokens s !! token_id = None
    \/ offers s !! token_id = None
    \/ (exists t, tokens s !! token_id = Some t /\ owner t <> sp_sender ctx)
    \/ (exists token_offers,
           offers s !! token_id = Some token_offers
           /\ token_offers !! bidder = None)
    \/ (exists token_offers offer,
           offers s !! token_id = Some token_offers
           /\ token_offers !! bidder = Some offer
           /\ (expires_at offer <= sp_now ctx)%Z))).
Proof.
  intros Hs.
  pose proof (fun t p Ht => offer_bounds _ _ token_id t p Hs Ht) as Hb.
  split.
  - intros [reason H]. apply run_Failwith in H. unfold accept_offer in H.
    mrun_cases H;
      try match goal with
        | Hg : _ && _ = false |- _ =>
            rewrite Hb in Hg by reflexivity; discriminate
        end;
      bool_to_prop; try discriminate.
    all: try (exfalso; absurd_checks; fail).
    all: first
           [ left; assumption
           | right; left; assumption
           | right; right; left; first [assumption|reflexivity]
           | right; right; right; left; first [assumption|reflexivity]
           | right; right; right; right; left;
             eexists; split; [reflexivity|]; assumption
           | right; right; right; right; right; left;
             eexists; split; [reflexivity|]; first [assumption|reflexivity]
           | right; right; right; right; right; right;
             eexists _, _; split; [reflexivity|];
             split; [first [eassumption|reflexivity]|]; assumption ].
  - intros Hc.
    destruct (run (accept_offer token_id bidder) ctx s)
      as [[s' o]|reason] eqn:H; [exfalso|eauto].
    run_inv H; bool_to_prop;
      destruct Hc as [Hc|[Hc|[Hc|[Hc|[(t' & Ht' & Hc)|[(m & Hm & Hc)
                     |(m & ofr & Hm & Hofr & Hc)]]]]]];
      simplify_eq; first [congruence | lia].
Qed.

(** ** The views *)

Ltac view_simpl :=
  unfold view, get_token, get_owner, is_for_sale, get_price,
    get_total_supply, get_admin, is_paused, get_config;
  rewrite ?bind_get; cbv zeta; cbn [data];
  rewrite ?bind_assert.

Lemma contains_None {K V} `{Countable K} (k : K) (m : gmap K V) :
  m !! k = None -> contains k m = false.
Proof. apply contains_false. Qed.

Lemma views_of_token s token_id :
  view (get_token token_id) s =
    match tokens s !! token_id with
    | Some t => Ok t
    | None => Failwith "VIEW: Token not found"
    end
  /\ view (get_owner token_id) s =
       match tokens s !! token_id with
       | Some t => Ok (owner t)
       | None => Failwith "VIEW: Token not found"
       end
  /\ view (is_for_sale token_id) s =
       Ok (match tokens s !! token_id with
           | Some t => for_sale t
           | None => false
           end)
  /\ view (get_price token_id) s =
       Ok (match tokens s !! token_id with
           | Some t => if for_sale t then price t else 0
           | None => 0
           end).
Proof.
  destruct (tokens s !! token_id) as [t|] eqn:Ht.
  - pose proof (contains_lookup _ _ _ Ht) as Hc.
    repeat split; view_simpl; rewrite Hc;
      rewrite ?bind_getitem; unfold getitem; rewrite Ht; try reflexivity.
    destruct (for_sale t); reflexivity.
  - pose proof (contains_None _ _ Ht) as Hc.
    repeat split; view_simpl; rewrite Hc; reflexivity.
Qed.

(** X25: [get_token] and [get_owner] fail with "VIEW: Token not found"
    exactly on an id that holds no token, and return the record and its
    owner otherwise; [is_for_sale] and [get_price] never fail: they return
    false and 0 on an id that holds no token, and the price only of a listed
    token. *)
Theorem token_views s token_id :
  view (get_token token_id) s =
    match tokens s !! token_id with
    | Some t => Ok t
    | None => Failwith "VIEW: Token not found"
    end
  /\ view (get_owner token_id) s =
       match tokens s !! token_id with
       | Some t => Ok (owner t)
       | None => Failwith "VIEW: Token not found"
       end
  /\ view (is_for_sale token_id) s =
       Ok (match tokens s !! token_id with
           | Some t => for_sale t
           | None => false
           end)
  /\ view (get_price token_id) s =
       Ok (match tokens s !! token_id with
           | Some t => if for_sale t then price t else 0
           | None => 0
           end).
Proof. apply views_of_token. Qed.

(** X26: on a reachable storage [get_price] returns the stored price of every
    existing token, listed or not. *)
Theorem get_price_is_stored_price s token_id t :
  reachable s ->
  tokens s !! token_id = Some t ->
  view (get_price token_id) s = Ok (price t).
Proof.
  intros Hs Ht. destruct (views_of_token s token_id) as (_ & _ & _ & ->).
  rewrite Ht. destruct (for_sale t) eqn:Hl; [reflexivity|].
  rewrite (reachable_via_unlisted_at_zero _ _ Hs token_id t Ht Hl).
  reflexivity.
Qed.

(** X27: after a successful [burn(id)], [get_token] and [get_owner] fail on
    the id, [is_for_sale] returns false and [get_price] 0, and
    [get_total_supply] is unchanged: it counts the tokens ever minted. *)
Theorem views_after_burn s ctx token_id s' o :
  run (burn token_id) ctx s = Ok (s', o) ->
  view (get_token token_id) s' = Failwith "VIEW: Token not found"
  /\ view (get_owner token_id) s' = Failwith "VIEW: Token not found"
  /\ view (is_for_sale token_id) s' = Ok false
  /\ view (get_price token_id) s' = Ok 0
  /\ view get_total_supply s' = view get_total_supply s.
Proof.
  intros H.
  destruct (views_of_token s' token_id) as (-> & -> & -> & ->).
  assert (tokens s' !! token_id = None /\ next_id s' = next_id s) as [-> Hn].
  { run_inv H; split; first [apply lookup_delete_eq | reflexivity]. }
  repeat split. unfold view, get_total_supply. cbn. rewrite Hn. reflexivity.
Qed.

(** X28: after a successful [buy(id)], [get_owner] returns the buyer,
    [is_for_sale] false and [get_price] 0. *)
Theorem views_after_buy s ctx token_id s' o :
  run (buy token_id) ctx s = Ok (s', o) ->
  view (get_owner token_id) s' = Ok (sp_sender ctx)
  /\ view (is_for_sale token_id) s' = Ok false
  /\ view (get_price token_id) s' = Ok 0.
Proof.
  intros H.
  destruct (views_of_token s' token_id) as (_ & -> & -> & ->).
  run_inv H; rewrite lookup_insert_eq; auto.
Qed.

(** X29: after a successful [list_for_sale(id, price)], [get_owner] returns
    the caller, [is_for_sale] true and [get_price] the price. *)
Theorem views_after_list_for_sale s ctx token_id price s' o :
  run (list_for_sale token_id price) ctx s = Ok (s', o) ->
  view (get_owner token_id) s' = Ok (sp_sender ctx)
  /\ view (is_for_sale token_id) s' = Ok true
  /\ view (get_price token_id) s' = Ok price.
Proof.
  intros H.
  destruct (views_of_token s' token_id) as (_ & -> & -> & ->).
  run_inv H. bool_to_prop. rewrite lookup_insert_eq. storage_simpl.
  repeat split. congruence.
Qed.

Ltac scenario_run := vm_compute; reflexivity.

Lemma token_ids_below_counter_witness :
  (forall token_id,
      is_Some (tokens Scenario.sold !! token_id) ->
      token_id < next_id Scenario.sold)
  /\ (0 < max_supply Scenario.sold ->
      next_id Scenario.sold <= max_supply Scenario.sold).
Proof.
  apply token_ids_below_counter. exact scenario_sold_reachable.
Defined.

Lemma unlisted_token_price_zero_witness : price Episode.token_sold = 0.
Proof.
  apply (unlisted_token_price_zero Scenario.sold 0 Episode.token_sold).
  - exact scenario_sold_reachable.
  - scenario_run.
  - reflexivity.
Defined.

Lemma percentages_bounded_witness :
  platform_fee_percent Scenario.sold <= 20
  /\ forall token_id t,
       tokens Scenario.sold !! token_id = Some t -> royalty_percent t <= 50.
Proof. apply percentages_bounded. exact scenario_sold_reachable. Defined.

Lemma pending_admin_is_not_admin_witness :
  pending_admin Scenario.proposed <> Some (admin Scenario.proposed).
Proof.
  apply pending_admin_is_not_admin. exact scenario_proposed_reachable.
Defined.

Lemma offers_only_on_existing_tokens_witness :
  is_Some (tokens Scenario.offered !! 0).
Proof.
  apply offers_only_on_existing_tokens.
  - exact scenario_offered_reachable.
  - vm_compute. eauto.
Defined.

Lemma burned_ids_are_not_reissued_witness :
  next_id Episode.burned <= next_id Episode.minted_again
  /\ (0 < next_id Episode.burned -> tokens Episode.burned !! 0 = None ->
      tokens Episode.minted_again !! 0 = None).
Proof.
  apply (burned_ids_are_not_reissued Episode.burned (Scenario.from "bob" 10 2)
           (Mint "ipfs://Qm2" 0)).
  apply step_after. scenario_run.
Defined.

Lemma creation_data_immutable_witness :
  metadata Episode.token_sold = metadata Episode.token_listed
  /\ author Episode.token_sold = author Episode.token_listed
  /\ royalty_percent Episode.token_sold = royalty_percent Episode.token_listed
  /\ created_at Episode.token_sold = created_at Episode.token_listed.
Proof.
  apply (creation_data_immutable Scenario.listed (Scenario.from "bob" 100 2)
           (Buy 0) Scenario.sold 0).
  - exact scenario_listed_reachable.
  - apply step_after. scenario_run.
  - scenario_run.
  - scenario_run.
Defined.

Lemma token_changes_are_authorized_witness :
  sp_sender (Scenario.from "bob" 100 2) = owner Episode.token_listed
  \/ (Buy 0 = Buy 0 /\ paused Scenario.listed = false
      /\ for_sale Episode.token_listed = true
      /\ sp_amount (Scenario.from "bob" 100 2) = price Episode.token_listed).
Proof.
  apply (token_changes_are_authorized Scenario.listed
           (Scenario.from "bob" 100 2) (Buy 0) Scenario.sold 0).
  - exact scenario_listed_reachable.
  - apply step_after. scenario_run.
  - scenario_run.
  - vm_compute. discriminate.
Defined.

Lemma ownership_moves_witness :
  (Buy 0 = Buy 0
   /\ owner Episode.token_sold = sp_sender (Scenario.from "bob" 100 2)
   /\ for_sale Episode.token_listed = true
   /\ sp_amount (Scenario.from "bob" 100 2) = price Episode.token_listed)
  \/ (Buy 0 = Accept_offer 0 (owner Episode.token_sold)
      /\ sp_sender (Scenario.from "bob" 100 2) = owner Episode.token_listed
      /\ exists token_offers offer,
           offers Scenario.listed !! 0 = Some token_offers
           /\ token_offers !! owner Episode.token_sold = Some offer
           /\ (sp_now (Scenario.from "bob" 100 2) < expires_at offer)%Z)
  \/ (Buy 0 = Transfer 0 (owner Episode.token_sold)
      /\ sp_sender (Scenario.from "bob" 100 2) = owner Episode.token_listed
      /\ for_sale Episode.token_listed = false).
Proof.
  apply (ownership_moves Scenario.listed (Scenario.from "bob" 100 2) (Buy 0)
           Scenario.sold 0 Episode.token_listed Episode.token_sold).
  - exact scenario_listed_reachable.
  - apply step_after. scenario_run.
  - scenario_run.
  - scenario_run.
  - vm_compute. discriminate.
Defined.

Lemma configuration_changes_by_admin_witness :
  max_supply Scenario.floor_raised = max_supply Scenario.listed
  /\ max_metadata_length Scenario.floor_raised
     = max_metadata_length Scenario.listed
  /\ ((platform_fee_percent Scenario.floor_raised
       <> platform_fee_percent Scenario.listed
       \/ mint_price Scenario.floor_raised <> mint_price Scenario.listed
       \/ min_sale_price Scenario.floor_raised
          <> min_sale_price Scenario.listed
       \/ paused Scenario.floor_raised <> paused Scenario.listed) ->
      sp_sender (Scenario.from "admin" 0 2) = admin Scenario.listed
      /\ sp_amount (Scenario.from "admin" 0 2) = 0).
Proof.
  apply (configuration_changes_by_admin Scenario.listed
           (Scenario.from "admin" 0 2) (Update_min_sale_price 200)).
  apply step_after. scenario_run.
Defined.

Lemma pending_balance_reduced_only_by_own_withdraw_witness :
  Withdraw = Withdraw
  /\ sp_sender (Scenario.from "alice" 0 3) = "alice"
  /\ get_pending (after Scenario.sold (Scenario.from "alice" 0 3) Withdraw)
       "alice" = 0.
Proof.
  apply (pending_balance_reduced_only_by_own_withdraw Scenario.sold
           (Scenario.from "alice" 0 3) Withdraw).
  - apply step_after. scenario_run.
  - scenario_run.
Defined.

Lemma fees_reduced_only_by_admin_withdrawal_witness :
  Withdraw_fees = Withdraw_fees
  /\ sp_sender (Scenario.from "admin" 0 3) = admin Scenario.sold
  /\ collected_fees
       (after Scenario.sold (Scenario.from "admin" 0 3) Withdraw_fees) = 0.
Proof.
  apply (fees_reduced_only_by_admin_withdrawal Scenario.sold
           (Scenario.from "admin" 0 3) Withdraw_fees).
  - apply step_after. scenario_run.
  - scenario_run.
Defined.

Lemma paused_blocks_gated_calls_witness :
  exists reason,
    run (dispatch (Make_offer 0 100)) (Scenario.from "dave" 80 4)
      Scenario.paused_with_offers = Failwith reason.
Proof.
  apply paused_blocks_gated_calls; reflexivity.
Defined.

Lemma pause_does_not_affect_other_calls_witness :
  commits (set_paused true Scenario.offered_twice)
    (Scenario.from "alice" 0 3) (Burn 0)
  = commits Scenario.offered_twice (Scenario.from "alice" 0 3) (Burn 0).
Proof.
  apply pause_does_not_affect_other_calls. reflexivity.
Defined.

Lemma value_conserved_witness :
  liabilities (after Scenario.sold (Scenario.from "alice" 0 3) Withdraw)
  + sent (issued_by Scenario.sold (Scenario.from "alice" 0 3) Withdraw)
  = liabilities Scenario.sold + sp_amount (Scenario.from "alice" 0 3).
Proof.
  apply (value_conserved Scenario.sold (Scenario.from "alice" 0 3) Withdraw).
  scenario_run.
Defined.

Lemma liabilities_are_funded_witness :
  liabilities Scenario.minted
  + (0 + sent (issued_by Scenario.origin (Scenario.from "alice" 10 0)
                 (Mint "ipfs://Qm1" 10)))
  = 0 + sp_amount (Scenario.from "alice" 10 0).
Proof.
  apply liabilities_are_funded.
  apply (funded_step Scenario.origin 0 0 (Scenario.from "alice" 10 0)
           (Mint "ipfs://Qm1" 10)).
  - eapply funded_init, scenario_init_origin.
  - scenario_run.
Defined.

Lemma list_then_cancel_restores_witness :
  exists o2,
    run (cancel_sale 0) (Scenario.from "alice" 0 5) Scenario.listed
    = Ok (Scenario.minted, o2).
Proof.
  apply (list_then_cancel_restores Scenario.minted (Scenario.from "alice" 0 1)
           0 100 Scenario.listed
           (issued_by Scenario.minted (Scenario.from "alice" 0 1)
              (List_for_sale 0 100))).
  - exact scenario_minted_reachable.
  - scenario_run.
  - reflexivity.
  - reflexivity.
Defined.

Lemma cancel_offer_spec_witness :
  exists token_offers offer,
    offers Scenario.offered !! 0 = Some token_offers
    /\ token_offers !! "bob" = Some offer
    /\ offers (after Scenario.offered (Scenario.from "bob" 0 9)
                 (Cancel_offer 0))
       = <[0 := delete "bob" token_offers]> (offers Scenario.offered)
    /\ get_pending (after Scenario.offered (Scenario.from "bob" 0 9)
                      (Cancel_offer 0)) "bob"
       = get_pending Scenario.offered "bob" + amount offer
    /\ (forall a, a <> "bob" ->
                  pending_payments
                    (after Scenario.offered (Scenario.from "bob" 0 9)
                       (Cancel_offer 0)) !! a
                  = pending_payments Scenario.offered !! a)
    /\ tokens (after Scenario.offered (Scenario.from "bob" 0 9)
                 (Cancel_offer 0)) = tokens Scenario.offered
    /\ collected_fees (after Scenario.offered (Scenario.from "bob" 0 9)
                         (Cancel_offer 0))
       = collected_fees Scenario.offered.
Proof.
  apply (proj2 (cancel_offer_spec Scenario.offered (Scenario.from "bob" 0 9) 0)
           _ (issued_by Scenario.offered (Scenario.from "bob" 0 9)
                (Cancel_offer 0))).
  scenario_run.
Defined.

Lemma make_offer_then_cancel_refunds_witness :
  exists s2 o2,
    run (cancel_offer 0) (Scenario.from "bob" 0 9) Scenario.offered
    = Ok (s2, o2)
    /\ get_pending s2 "bob"
       = get_pending Scenario.minted "bob"
         + offered_amount Scenario.minted 0 "bob" + 50
    /\ offers s2 !! 0 ≫= (.!! "bob") = None
    /\ tokens s2 = tokens Scenario.minted
    /\ collected_fees s2 = collected_fees Scenario.minted.
Proof.
  apply (make_offer_then_cancel_refunds Scenario.minted
           (Scenario.from "bob" 50 1) 0 100 Scenario.offered
           (issued_by Scenario.minted (Scenario.from "bob" 50 1)
              (Make_offer 0 100))
           (Scenario.from "bob" 0 9)).
  - scenario_run.
  - reflexivity.
  - reflexivity.
Defined.

Lemma withdraw_fees_spec_witness :
  after Scenario.sold (Scenario.from "admin" 0 3) Withdraw_fees
  = set_collected_fees 0 Scenario.sold
  /\ op <$> issued_by Scenario.sold (Scenario.from "admin" 0 3) Withdraw_fees
     = [Send (admin Scenario.sold) (collected_fees Scenario.sold);
        Emit (FeesWithdrawn (admin Scenario.sold)
                (collected_fees Scenario.sold))]
  /\ Forall (fun i => collected_fees (at_issue i) = 0)
       (issued_by Scenario.sold (Scenario.from "admin" 0 3) Withdraw_fees)
  /\ (forall ctx',
         exists reason,
           run withdraw_fees ctx'
             (after Scenario.sold (Scenario.from "admin" 0 3) Withdraw_fees)
           = Failwith reason).
Proof.
  apply (proj2 (withdraw_fees_spec (Scenario.from "admin" 0 3) Scenario.sold)).
  scenario_run.
Defined.

Lemma mint_spec_witness :
  tokens Scenario.minted = <[0 := Episode.token_minted]> (tokens Scenario.origin)
  /\ next_id Scenario.minted = next_id Scenario.origin + 1
  /\ collected_fees Scenario.minted
     = collected_fees Scenario.origin + mint_price Scenario.origin
  /\ offers Scenario.minted = offers Scenario.origin
  /\ pending_payments Scenario.minted = pending_payments Scenario.origin
  /\ op <$> issued_by Scenario.origin (Scenario.from "alice" 10 0)
              (Mint "ipfs://Qm1" 10)
     = [Emit (Mint_event 0 "alice" "ipfs://Qm1" 10)].
Proof.
  apply (proj2 (mint_spec Scenario.origin (Scenario.from "alice" 10 0)
                  "ipfs://Qm1" 10)).
  scenario_run.
Defined.

Lemma mint_uses_fresh_id_witness :
  tokens Episode.burned !! next_id Episode.burned = None
  /\ (forall token_id, token_id <> next_id Episode.burned ->
                       tokens Episode.minted_again !! token_id
                       = tokens Episode.burned !! token_id)
  /\ (0 < max_supply Episode.burned ->
      next_id Episode.minted_again <= max_supply Episode.burned).
Proof.
  apply (mint_uses_fresh_id Episode.burned (Scenario.from "bob" 10 2)
           "ipfs://Qm2" 0 Episode.minted_again
           (issued_by Episode.burned (Scenario.from "bob" 10 2)
              (Mint "ipfs://Qm2" 0))).
  - apply reachable_via_after; [exact scenario_minted_reachable|exact I|].
    scenario_run.
  - scenario_run.
Defined.

Lemma transfer_spec_witness :
  exists t,
    tokens Scenario.minted !! 0 = Some t
    /\ after Scenario.minted (Scenario.from "alice" 0 1) (Transfer 0 "bob")
       = set_tokens (<[0 := with_owner "bob" t]> (tokens Scenario.minted))
           Scenario.minted
    /\ op <$> issued_by Scenario.minted (Scenario.from "alice" 0 1)
                (Transfer 0 "bob")
       = [Emit (Transfer_event 0 (owner t) "bob")].
Proof.
  apply (proj2 (transfer_spec Scenario.minted (Scenario.from "alice" 0 1)
                  0 "bob")).
  scenario_run.
Defined.

Lemma accept_offer_aborts_iff_witness :
  exists reason,
    run (accept_offer 0 "bob") (Scenario.from "alice" 0 101) Scenario.offered
    = Failwith reason.
Proof.
  apply (proj2 (accept_offer_aborts_iff Scenario.offered
                  (Scenario.from "alice" 0 101) 0 "bob"
                  scenario_offered_reachable)).
  do 6 right.
  exists {["bob" := {| amount := 50; expires_at := 101%Z |}]},
    {| amount := 50; expires_at := 101%Z |}.
  split; [scenario_run|]. split; [scenario_run|]. cbn. lia.
Defined.

Lemma get_price_is_stored_price_witness :
  view (get_price 0) Scenario.listed = Ok (price Episode.token_listed).
Proof.
  apply get_price_is_stored_price.
  - exact scenario_listed_reachable.
  - scenario_run.
Defined.

Lemma views_after_burn_witness :
  view (get_token 0) Episode.burned = Failwith "VIEW: Token not found"
  /\ view (get_owner 0) Episode.burned = Failwith "VIEW: Token not found"
  /\ view (is_for_sale 0) Episode.burned = Ok false
  /\ view (get_price 0) Episode.burned = Ok 0
  /\ view get_total_supply Episode.burned = view get_total_supply Scenario.minted.
Proof.
  apply (views_after_burn Scenario.minted (Scenario.from "alice" 0 1) 0
           Episode.burned
           (issued_by Scenario.minted (Scenario.from "alice" 0 1) (Burn 0))).
  scenario_run.
Defined.

Lemma views_after_buy_witness :
  view (get_owner 0) Scenario.sold = Ok (sp_sender (Scenario.from "bob" 100 2))
  /\ view (is_for_sale 0) Scenario.sold = Ok false
  /\ view (get_price 0) Scenario.sold = Ok 0.
Proof.
  apply (views_after_buy Scenario.listed (Scenario.from "bob" 100 2) 0
           Scenario.sold
           (issued_by Scenario.listed (Scenario.from "bob" 100 2) (Buy 0))).
  scenario_run.
Defined.

Lemma views_after_list_for_sale_witness :
  view (get_owner 0) Scenario.listed
  = Ok (sp_sender (Scenario.from "alice" 0 1))
  /\ view (is_for_sale 0) Scenario.listed = Ok true
  /\ view (get_price 0) Scenario.listed = Ok 100.
Proof.
  apply (views_after_list_for_sale Scenario.minted (Scenario.from "alice" 0 1)
           0 100 Scenario.listed
           (issued_by Scenario.minted (Scenario.from "alice" 0 1)
              (List_for_sale 0 100))).
  scenario_run.
Defined.

